(** * archive-downloader: a shallow embedding of [ia.py]

    The script searches archive.org, reads the metadata of every item
    found, keeps the [.torrent] files whose names match a keyword and
    downloads them with a bounded number of attempts.

    Modelling choices.
    - Python [str] values are Rocq strings read as sequences of code
      points below 256; [lower] and [split] follow Python's tables on that
      range.
    - Python [int] values are [Z].
    - The outside world is explicit: a file system (a finite map from
      paths to nodes), the list of HTTP requests issued so far, and the
      journal of log records and console lines.  The server is an oracle
      giving the outcome of the n-th request.
    - A function that performs I/O is a program over four effects
      ([requests.get], [os.path.exists], writing a streamed body to a
      file, emitting a record); programs are run by [exec], one effect at
      a time by [step], and interleaved by the worker pool.
    - What the code does not define itself is a parameter:
      [fuzz.partial_ratio], the configuration values [download_dir] and
      [max_retries], and Python's rendering of a list or dict inside an
      f-string.
    - Writing the body of a response to a file is one effect: the file is
      opened, receives the chunks and is closed without another worker
      acting in between.  Paths name entries literally, up to trailing
      separators; links, [.] and [..] are not interpreted.
    - JSON numbers are integers; floats do not occur in what the code
      reads.
    - Logging always succeeds.  [console.print] reads its line as rich
      markup: a bracket followed by a slash opens a closing tag, and a
      closing tag that closes nothing makes the call raise [MarkupError].
      The model prints every line, so it follows the code on the lines
      that hold no such tag apart from those the script writes itself.
      A statement that depends on a line being printed takes as
      hypothesis that the URL, the destination, the identifier or the
      keyword quoted in that line holds no closing tag
      ([no_closing_tag]); the text of an exception is taken to hold none.
    - The progress bar, the splash screen and the panel of the menu are
      not modelled; the interactive loop reads the answers of the user
      from a list. *)

From Stdlib Require Import ZArith Ascii String List Bool Lia DecimalString Sorted.
From stdpp Require Import base option list gmap strings.

Local Open Scope string_scope.
Local Open Scope Z_scope.

(** ** Python strings *)

Module Py.

Definition code (c : ascii) : N := N_of_ascii c.

(** [str.isspace] on one code point below 256. *)
Definition isspace (c : ascii) : bool :=
  let n := code c in
  ((9 <=? n) && (n <=? 13) || (28 <=? n) && (n <=? 32)
   || (n =? 133) || (n =? 160))%N.

(** [str.lower] on one code point below 256: A-Z, and the upper-case
    letters of Latin-1 (U+00C0..U+00DE but the multiplication sign). *)
Definition lower_char (c : ascii) : ascii :=
  let n := code c in
  if ((65 <=? n) && (n <=? 90)
      || (192 <=? n) && (n <=? 222) && negb (n =? 215))%N
  then ascii_of_N (n + 32) else c.

Fixpoint lower (s : string) : string :=
  match s with
  | EmptyString => EmptyString
  | String c rest => String (lower_char c) (lower rest)
  end.

Definition flush (word : string) : list string :=
  if decide (word = "") then [] else [word].

(** [s.split()]: the maximal runs of characters that are not white space.
    [word] is the run being read. *)
Fixpoint split_from (word s : string) : list string :=
  match s with
  | EmptyString => flush word
  | String c rest =>
      if isspace c then flush word ++ split_from "" rest
      else split_from (word +:+ String c "") rest
  end.

Definition split (s : string) : list string := split_from "" s.

(** [s.split(sep)[-1]] for a one-character separator: what follows the
    last [sep], the whole of [s] when there is none.  [field] is the text
    read since the last separator. *)
Fixpoint last_field_from (sep : ascii) (field s : string) : string :=
  match s with
  | EmptyString => field
  | String c rest =>
      if decide (c = sep) then last_field_from sep "" rest
      else last_field_from sep (field +:+ String c "") rest
  end.

Definition last_field (sep : ascii) (s : string) : string :=
  last_field_from sep "" s.

Fixpoint startswith (s pre : string) : bool :=
  match pre, s with
  | EmptyString, _ => true
  | String a pre', String b s' => if decide (a = b) then startswith s' pre' else false
  | String _ _, EmptyString => false
  end.

(** [s.endswith(suffix)]: some tail of [s] is [suffix]. *)
Fixpoint endswith (s suffix : string) : bool :=
  bool_decide (s = suffix) ||
  match s with
  | EmptyString => false
  | String _ rest => endswith rest suffix
  end.

(** [sub in s] for two strings *)
Fixpoint contains (s sub : string) : bool :=
  startswith s sub ||
  match s with
  | EmptyString => false
  | String _ rest => contains rest sub
  end.

(** [str(n)] for an int *)
Definition str_int (n : Z) : string := NilZero.string_of_int (Z.to_int n).

(** [range(n)] *)
Definition range (n : Z) : list Z := map Z.of_nat (seq 0 (Z.to_nat n)).

(** [posixpath.join(a, b)] *)
Definition path_join (a b : string) : string :=
  if startswith b "/" then b
  else if decide (a = "") then b
  else if endswith a "/" then a +:+ b
  else a +:+ "/" +:+ b.

(** [s.lstrip()] and [s.rstrip()]: white space removed at one end *)
Fixpoint lstrip (s : string) : string :=
  match s with
  | EmptyString => EmptyString
  | String c rest => if isspace c then lstrip rest else s
  end.

Fixpoint rstrip (s : string) : string :=
  match s with
  | EmptyString => EmptyString
  | String c rest =>
      match rstrip rest with
      | EmptyString => if isspace c then EmptyString else String c EmptyString
      | kept => String c kept
      end
  end.

(** [s.strip()] *)
Definition strip (s : string) : string := lstrip (rstrip s).

End Py.

(** ** Exceptions and results *)

Inductive exn : Type :=
| RequestException (reason : string)  (* connection fault or timeout *)
| HTTPError (status : Z)              (* [raise_for_status] *)
| JSONDecodeError                     (* [response.json()] *)
| OSError (path : string)             (* [open(path, 'wb')] *)
| KeyError (key : string)
| TypeError
| AttributeError.

Inductive result (A : Type) : Type :=
| Ok (a : A)
| Raise (e : exn).
Arguments Ok {A} a.
Arguments Raise {A} e.

(** ** Decoded JSON documents and the Python operations the code applies
    to them *)

#[warnings="-register-all"]
Inductive json : Type :=
| JNull
| JBool (b : bool)
| JInt (n : Z)
| JStr (s : string)
| JList (items : list json)
| JDict (fields : list (string * json)).

Module Json.

Fixpoint assoc (key : string) (fields : list (string * json)) : option json :=
  match fields with
  | [] => None
  | (k, v) :: rest => if decide (k = key) then Some v else assoc key rest
  end.

(** [v[key]] for a string key *)
Definition subscript (v : json) (key : string) : result json :=
  match v with
  | JDict fields =>
      match assoc key fields with
      | Some x => Ok x
      | None => Raise (KeyError key)
      end
  | _ => Raise TypeError
  end.

(** [v.get(key, default)] *)
Definition get (v : json) (key : string) (default : json) : result json :=
  match v with
  | JDict fields => Ok (from_option id default (assoc key fields))
  | _ => Raise AttributeError
  end.

(** [len(v)] *)
Definition len (v : json) : result Z :=
  match v with
  | JList items => Ok (Z.of_nat (length items))
  | JDict fields => Ok (Z.of_nat (length fields))
  | JStr s => Ok (Z.of_nat (String.length s))
  | _ => Raise TypeError
  end.

Fixpoint chars (s : string) : list json :=
  match s with
  | EmptyString => []
  | String c rest => JStr (String c "") :: chars rest
  end.

(** the values a [for] loop or a comprehension over [v] visits *)
Definition iter (v : json) : result (list json) :=
  match v with
  | JList items => Ok items
  | JDict fields => Ok (map (fun kv => JStr (fst kv)) fields)
  | JStr s => Ok (chars s)
  | _ => Raise TypeError
  end.

Definition is_str (key : string) (v : json) : bool :=
  match v with
  | JStr s => bool_decide (s = key)
  | _ => false
  end.

(** [key in v] for a string key *)
Definition contains (key : string) (v : json) : result bool :=
  match v with
  | JDict fields => Ok (bool_decide (is_Some (assoc key fields)))
  | JList items => Ok (existsb (is_str key) items)
  | JStr s => Ok (Py.contains s key)
  | _ => Raise TypeError
  end.

End Json.

(** ** HTTP responses *)

Abbreviation bytes := (list Byte.byte).

(** What [requests.get] hands back.  [chunks] are the pieces
    [iter_content(1024)] yields, [broken] the exception that ends the
    iteration early (none when the body arrives whole), [document] the
    value of [response.json()] (none when the body is not JSON). *)
Record response : Type := Response {
  status_code : Z;
  chunks : list bytes;
  broken : option exn;
  document : option json
}.

(** [response.raise_for_status()] *)
Definition raise_for_status (r : response) : result unit :=
  if (400 <=? status_code r) && (status_code r <? 600)
  then Raise (HTTPError (status_code r)) else Ok tt.

(** [response.json()] *)
Definition response_json (r : response) : result json :=
  match document r with
  | Some v => Ok v
  | None => Raise JSONDecodeError
  end.

(** ** Log records and console lines

    One constructor per message of the script, carrying the values its
    f-string interpolates. *)

Inductive message : Type :=
| AlreadyExists (filename : string)
| Downloaded (filename : string)
| BadStatus (url : string) (status : Z)
| DownloadError (url : string) (e : exn)
| Retrying (attempt retries : Z)
| GaveUp (retries : Z) (url : string)
| SearchingQuery (search_url : string)
| SearchingItems
| FoundItems (count : Z)
| SearchFailed (e : exn)
| FetchingMetadata (what : string)
| NoMatchingTorrents (identifier : string) (keyword : option string)
| NoFilesFound (identifier : string)
| MetadataFailed (identifier : string) (e : exn).

Inductive level : Type := INFO | WARNING | ERROR.

Inductive event : Type :=
| Log (lvl : level) (m : message)   (* [logging.info/warning/error] *)
| Console (m : message).            (* [console.print] *)

(** ** The file system *)

Inductive node : Type :=
| Dir
| File (content : bytes).

Module Fs.

(** A path without its trailing separators. *)
Fixpoint rstrip (s : string) : string :=
  match s with
  | EmptyString => EmptyString
  | String c rest =>
      match rstrip rest with
      | EmptyString => if decide (c = "/"%char) then EmptyString else String c EmptyString
      | kept => String c kept
      end
  end.

(** The key of the entry a non-empty path names: the path without its
    trailing separators, ["/"] for the root. *)
Definition locate (path : string) : string :=
  if decide (rstrip path = "") then "/" else rstrip path.

(** The entry at [path], as [stat] finds it: nothing for the empty path,
    and a path with a trailing separator names directories only. *)
Definition lookup (fs : gmap string node) (path : string) : option node :=
  if decide (path = "") then None
  else if decide (locate path = "/") then Some Dir
  else
    match fs !! locate path with
    | Some Dir => Some Dir
    | Some (File c) => if Py.endswith path "/" then None else Some (File c)
    | None => None
    end.

(** [os.path.exists] *)
Definition exists_ (fs : gmap string node) (path : string) : bool :=
  bool_decide (is_Some (lookup fs path)).

Definition is_dir (fs : gmap string node) (path : string) : bool :=
  match lookup fs path with
  | Some Dir => true
  | _ => false
  end.

(** The directory part of a path: what precedes its last separator; none
    when the path has no separator (an entry of the working directory). *)
Fixpoint dirname (path : string) : option string :=
  match path with
  | EmptyString => None
  | String c rest =>
      match dirname rest with
      | Some d => Some (String c d)
      | None => if decide (c = "/"%char) then Some EmptyString else None
      end
  end.

(** Whether [open(path, 'wb')] succeeds: the path names no directory, and
    the directory that holds it exists. *)
Definition can_open (fs : gmap string node) (path : string) : bool :=
  negb (bool_decide (path = "")) && negb (Py.endswith path "/")
  && negb (is_dir fs path)
  && match dirname path with
     | None => true
     | Some d => bool_decide (d = "") || is_dir fs d
     end.

(** [with open(path, 'wb') as file: for chunk in ...: file.write(chunk)]:
    the file is created or truncated as soon as it is opened and holds
    the chunks received, also when the iteration ends in an exception. *)
Definition write_chunks (fs : gmap string node) (path : string)
    (received : list bytes) (failure : option exn)
  : result unit * gmap string node :=
  if can_open fs path
  then (match failure with Some e => Raise e | None => Ok tt end,
        <[path := File (concat received)]> fs)
  else (Raise (OSError path), fs).

End Fs.

(** ** The world *)

Record world : Type := World {
  files : gmap string node;
  sent : list string;        (* the URLs requested, oldest first *)
  journal : list event       (* what was logged and printed, oldest first *)
}.

Definition request (url : string) (w : world) : world :=
  World (files w) (sent w ++ [url]) (journal w).

Definition record (e : event) (w : world) : world :=
  World (files w) (sent w) (journal w ++ [e]).

Definition with_files (fs : gmap string node) (w : world) : world :=
  World fs (sent w) (journal w).

(** ** Programs *)

Inductive prog (A : Type) : Type :=
| Ret (a : A)
| Get (url : string) (k : result response -> prog A)
| Exists (path : string) (k : bool -> prog A)
| Store (path : string) (received : list bytes) (failure : option exn)
    (k : result unit -> prog A)
| Emit (e : event) (k : prog A).
Arguments Ret {A} a.
Arguments Get {A} url k.
Arguments Exists {A} path k.
Arguments Store {A} path received failure k.
Arguments Emit {A} e k.

Fixpoint bind {A B : Type} (p : prog A) (f : A -> prog B) : prog B :=
  match p with
  | Ret a => f a
  | Get url k => Get url (fun r => bind (k r) f)
  | Exists path k => Exists path (fun b => bind (k b) f)
  | Store path received failure k =>
      Store path received failure (fun r => bind (k r) f)
  | Emit e k => Emit e (bind k f)
  end.

Declare Scope prog_scope.
Delimit Scope prog_scope with P.
Notation "x ← y ; z" := (bind y (fun x => z))
  (at level 20, y at level 100, z at level 200, only parsing) : prog_scope.
Notation "y ;; z" := (bind y (fun _ => z))
  (at level 100, z at level 200, only parsing, right associativity) : prog_scope.

Definition requests_get (url : string) : prog (result response) := Get url Ret.
Definition os_path_exists (path : string) : prog bool := Exists path Ret.
Definition write_body (path : string) (r : response) : prog (result unit) :=
  Store path (chunks r) (broken r) Ret.
Definition logging_info (m : message) : prog unit := Emit (Log INFO m) (Ret tt).
Definition logging_warning (m : message) : prog unit := Emit (Log WARNING m) (Ret tt).
Definition logging_error (m : message) : prog unit := Emit (Log ERROR m) (Ret tt).
Definition console_print (m : message) : prog unit := Emit (Console m) (Ret tt).

Definition and_then {A B : Type} (r : result A) (f : A -> result B) : result B :=
  match r with
  | Ok a => f a
  | Raise e => Raise e
  end.

Declare Scope result_scope.
Delimit Scope result_scope with R.
Notation "x ← y ; z" := (and_then y (fun x => z))
  (at level 20, y at level 100, z at level 200, only parsing) : result_scope.
Notation "y ;; z" := (and_then y (fun _ => z))
  (at level 100, z at level 200, only parsing, right associativity) : result_scope.

(** ** Running programs *)

Section Run.

(** [server n url]: what the n-th request of the run gets when it asks for
    [url]: a response, or the exception [requests.get] raises. *)
Variable server : nat -> string -> result response.

(** One effect of a program. *)
Definition step {A : Type} (p : prog A) (w : world) : prog A * world :=
  match p with
  | Ret a => (Ret a, w)
  | Get url k => (k (server (length (sent w)) url), request url w)
  | Exists path k => (k (Fs.exists_ (files w) path), w)
  | Store path received failure k =>
      let '(r, fs) := Fs.write_chunks (files w) path received failure in
      (k r, with_files fs w)
  | Emit e k => (k, record e w)
  end.

(** A program run to its end by one thread. *)
Fixpoint exec {A : Type} (p : prog A) (w : world) : A * world :=
  match p with
  | Ret a => (a, w)
  | Get url k => exec (k (server (length (sent w)) url)) (request url w)
  | Exists path k => exec (k (Fs.exists_ (files w) path)) w
  | Store path received failure k =>
      let '(r, fs) := Fs.write_chunks (files w) path received failure in
      exec (k r) (with_files fs w)
  | Emit e k => exec k (record e w)
  end.

(** *** The worker pool

    [ThreadPoolExecutor(max_workers=5)]: submitted tasks wait in a queue
    and are started in the order of submission, at most five at a time.
    A schedule says, step by step, whether a waiting task is started or
    which of the running tasks performs its next effect; when the
    schedule is used up, what is left is run to the end, as the [with]
    block waits for every task it was given. *)

Definition max_workers : nat := 5.

Inductive choice : Type :=
| Start
| Advance (worker : nat).

Definition is_done {A : Type} (p : prog A) : bool :=
  match p with
  | Ret _ => true
  | _ => false
  end.

Fixpoint drain (tasks : list (prog unit)) (w : world) : world :=
  match tasks with
  | [] => w
  | t :: rest => drain rest (snd (exec t w))
  end.

Fixpoint run_pool (sched : list choice) (running queue : list (prog unit))
    (w : world) : world :=
  match sched with
  | [] => drain (running ++ queue) w
  | Start :: sched' =>
      match queue with
      | t :: queue' =>
          if (length running <? max_workers)%nat
          then run_pool sched' (running ++ [t]) queue' w
          else run_pool sched' running queue w
      | [] => run_pool sched' running queue w
      end
  | Advance i :: sched' =>
      match running !! i with
      | Some t =>
          let '(t', w') := step t w in
          run_pool sched'
            (if is_done t' then delete i running else <[i := t']> running)
            queue w'
      | None => run_pool sched' running queue w
      end
  end.

End Run.

(** ** The script *)

Section Script.

Local Open Scope prog_scope.

(** [fuzz.partial_ratio] *)
Variable partial_ratio : string -> string -> Z.
(** how an f-string renders a list or a dict *)
Variable repr : json -> string.
(** [config.get('settings', 'download_dir', fallback='torrent_files')] *)
Variable download_dir : string.
(** [config.getint('settings', 'max_retries', fallback=3)] *)
Variable max_retries : Z.

(** [f"{v}"] *)
Definition fstr (v : json) : string :=
  match v with
  | JStr s => s
  | JInt n => Py.str_int n
  | JNull => "None"
  | JBool true => "True"
  | JBool false => "False"
  | _ => repr v
  end.

(** *** download_file *)

(** The body of the [try] of one attempt: [Ok true] when it reaches
    [return], [Ok false] when it ends in the [else] branch, [Raise e] when
    an exception leaves it. *)
Definition fetch_once (url filename : string) : prog (result bool) :=
  r ← requests_get url;
  match r with
  | Raise e => Ret (Raise e)
  | Ok response =>
      if status_code response =? 200 then
        written ← write_body filename response;
        match written with
        | Raise e => Ret (Raise e)
        | Ok _ =>
            logging_info (Downloaded filename);;
            console_print (Downloaded filename);;
            Ret (Ok true)
        end
      else
        logging_error (BadStatus url (status_code response));;
        console_print (BadStatus url (status_code response));;
        Ret (Ok false)
  end.

(** [for attempt in range(retries): ...], [todo] being the attempts still
    to make; [true] when the loop is left by [return]. *)
Fixpoint attempts (url filename : string) (retries : Z) (todo : list Z)
  : prog bool :=
  match todo with
  | [] => Ret false
  | attempt :: todo' =>
      r ← fetch_once url filename;
      match r with
      | Ok true => Ret true
      | Ok false =>
          logging_info (Retrying (attempt + 1) retries);;
          attempts url filename retries todo'
      | Raise e =>
          logging_error (DownloadError url e);;
          console_print (DownloadError url e);;
          logging_info (Retrying (attempt + 1) retries);;
          attempts url filename retries todo'
      end
  end.

Definition destination (url dest_folder : string) : string :=
  Py.path_join dest_folder (Py.last_field "/" url).

Definition download_file (url dest_folder : string) (retries : Z) : prog unit :=
  let filename := destination url dest_folder in
  present ← os_path_exists filename;
  if present then
    logging_info (AlreadyExists filename);;
    console_print (AlreadyExists filename);;
    Ret tt
  else
    returned ← attempts url filename retries (Py.range retries);
    if returned then Ret tt
    else
      logging_error (GaveUp retries url);;
      console_print (GaveUp retries url);;
      Ret tt.

(** *** search_items *)

Definition search_url (query : string) (rows : Z) : string :=
  "https://archive.org/advancedsearch.php?q=" +:+ query
  +:+ "&fl[]=identifier&rows=" +:+ Py.str_int rows +:+ "&output=json".

(** The part of the [try] after [requests.get]: the items and their
    number. *)
Definition docs_of (r : result response) : result (json * Z) :=
  (response ← r;
   raise_for_status response;;
   doc ← response_json response;
   found ← Json.get doc "response" (JDict []);
   items ← Json.get found "docs" (JList []);
   count ← Json.len items;
   Ok (items, count))%R.

Definition search_items (query : string) (rows : Z) : prog json :=
  logging_info (SearchingQuery (search_url query rows));;
  console_print SearchingItems;;
  r ← requests_get (search_url query rows);
  match docs_of r with
  | Ok (items, count) =>
      logging_info (FoundItems count);;
      console_print (FoundItems count);;
      Ret items
  | Raise e =>
      logging_error (SearchFailed e);;
      console_print (SearchFailed e);;
      Ret (JList [])
  end.

(** *** match_terms *)

(** [for term in terms: if ... < threshold: return False] then
    [return True] *)
Fixpoint terms_loop (terms : list string) (text : string) (threshold : Z) : bool :=
  match terms with
  | [] => true
  | term :: terms' =>
      if partial_ratio term (Py.lower text) <? threshold then false
      else terms_loop terms' text threshold
  end.

Definition match_terms (text keyword : string) (threshold : Z) : bool :=
  terms_loop (Py.split (Py.lower keyword)) text threshold.

(** *** download_torrent *)

Definition metadata_url (identifier : string) : string :=
  "https://archive.org/metadata/" +:+ identifier.

Definition torrent_url (identifier name : string) : string :=
  "https://archive.org/download/" +:+ identifier +:+ "/" +:+ name.

(** [file['name']] where the code goes on to call a [str] method on it *)
Definition name_of (file : json) : result string :=
  (v ← Json.subscript file "name";
   match v with
   | JStr s => Ok s
   | _ => Raise AttributeError
   end)%R.

(** [[file for file in entries if file['name'].endswith('.torrent')]] *)
Fixpoint keep_torrents (entries : list json) : result (list json) :=
  match entries with
  | [] => Ok []
  | file :: rest =>
      (name ← name_of file;
       kept ← keep_torrents rest;
       Ok (if Py.endswith name ".torrent" then file :: kept else kept))%R
  end.

(** [[file for file in torrent_files if match_terms(file['name'], keyword)]] *)
Fixpoint keep_matching (keyword : string) (torrent_files : list json)
  : result (list json) :=
  match torrent_files with
  | [] => Ok []
  | file :: rest =>
      (name ← name_of file;
       kept ← keep_matching keyword rest;
       Ok (if match_terms name keyword 70 then file :: kept else kept))%R
  end.

(** [if keyword:] for an [Optional[str]] *)
Definition truthy (keyword : option string) : option string :=
  match keyword with
  | Some k => if decide (k = "") then None else Some k
  | None => None
  end.

(** Lines 102-104: the files to download. *)
Definition select_files (metadata : json) (keyword : option string)
  : result (list json) :=
  (listed ← Json.subscript metadata "files";
   entries ← Json.iter listed;
   torrent_files ← keep_torrents entries;
   match truthy keyword with
   | Some k => keep_matching k torrent_files
   | None => Ok torrent_files
   end)%R.

(** [for file in torrent_files: download_file(torrent_url, download_dir)] *)
Fixpoint download_each (identifier : string) (torrent_files : list json)
  : prog (result unit) :=
  match torrent_files with
  | [] => Ret (Ok tt)
  | file :: rest =>
      match Json.subscript file "name" with
      | Raise e => Ret (Raise e)
      | Ok name =>
          download_file (torrent_url identifier (fstr name)) download_dir max_retries;;
          download_each identifier rest
      end
  end.

(** The [try] block after [requests.get]. *)
Definition process_metadata (identifier : string) (keyword : option string)
    (r : result response) : prog (result unit) :=
  match (response ← r; raise_for_status response;; response_json response)%R with
  | Raise e => Ret (Raise e)
  | Ok metadata =>
      match Json.contains "files" metadata with
      | Raise e => Ret (Raise e)
      | Ok true =>
          match select_files metadata keyword with
          | Raise e => Ret (Raise e)
          | Ok torrent_files =>
              match torrent_files with
              | [] =>
                  logging_warning (NoMatchingTorrents identifier keyword);;
                  console_print (NoMatchingTorrents identifier keyword)
              | _ => Ret tt
              end;;
              download_each identifier torrent_files
          end
      | Ok false =>
          logging_warning (NoFilesFound identifier);;
          console_print (NoFilesFound identifier);;
          Ret (Ok tt)
      end
  end.

Definition download_torrent (identifier : string) (keyword : option string)
  : prog unit :=
  logging_info (FetchingMetadata (metadata_url identifier));;
  console_print (FetchingMetadata identifier);;
  r ← requests_get (metadata_url identifier);
  tried ← process_metadata identifier keyword r;
  match tried with
  | Ok _ => Ret tt
  | Raise e =>
      logging_error (MetadataFailed identifier e);;
      console_print (MetadataFailed identifier e);;
      Ret tt
  end.

(** *** main *)

(** The loop of [main]: the tasks handed to the executor, and how the loop
    ends ([item['identifier']] may raise).  The identifier reaches
    [download_torrent] as the text its f-strings print. *)
Fixpoint submit_all (items : list json) (keyword : option string)
  : list (prog unit) * result unit :=
  match items with
  | [] => ([], Ok tt)
  | item :: rest =>
      match Json.subscript item "identifier" with
      | Raise e => ([], Raise e)
      | Ok identifier =>
          let '(tasks, ended) := submit_all rest keyword in
          (download_torrent (fstr identifier) keyword :: tasks, ended)
      end
  end.

(** [main] returns [None] ([Ok tt]) or raises; the executor runs what was
    submitted before the [with] block is left either way. *)
Definition main (server : nat -> string -> result response)
    (sched : list choice) (query : string) (num_items : Z)
    (keyword : option string) (w : world) : result unit * world :=
  let '(items, w1) := exec server (search_items query num_items) w in
  match Json.iter items with
  | Raise e => (Raise e, w1)
  | Ok docs =>
      let '(tasks, ended) := submit_all docs keyword in
      (ended, run_pool server sched [] tasks w1)
  end.

End Script.

(** ** What a run reports

    [download_file], [download_torrent] and [main] return no value; what
    happened to a download is what its last console line says. *)

Inductive DownloadOutcome : Type :=
| Skipped (path : string)
| Succeeded (path : string)
| Failed (url : string) (attempts_made : Z).

Definition outcome_of (e : event) : option DownloadOutcome :=
  match e with
  | Console (AlreadyExists filename) => Some (Skipped filename)
  | Console (Downloaded filename) => Some (Succeeded filename)
  | Console (GaveUp retries url) => Some (Failed url retries)
  | _ => None
  end.

(** The outcomes reported in a journal, in the order they were printed. *)
Definition outcomes (j : list event) : list DownloadOutcome :=
  omap outcome_of j.

(** The errors of single attempts recorded in a journal, oldest first. *)
Definition attempt_error (e : event) : option message :=
  match e with
  | Log ERROR (BadStatus url status) => Some (BadStatus url status)
  | Log ERROR (DownloadError url x) => Some (DownloadError url x)
  | _ => None
  end.

Definition attempt_errors (j : list event) : list message :=
  omap attempt_error j.

(** The part of a journal or of a request list added by a run. *)
Definition added {A : Type} (before after : list A) : list A :=
  drop (length before) after.

(** ** Vocabulary of the statements *)

(** A string made of white space only (the empty string included). *)
Fixpoint blank (s : string) : bool :=
  match s with
  | EmptyString => true
  | String c rest => Py.isspace c && blank rest
  end.

(** A string without white space. *)
Fixpoint no_space (s : string) : bool :=
  match s with
  | EmptyString => true
  | String c rest => negb (Py.isspace c) && no_space rest
  end.

(** A string without the separator [/]. *)
Fixpoint no_slash (s : string) : bool :=
  match s with
  | EmptyString => true
  | String c rest => negb (bool_decide (c = "/"%char)) && no_slash rest
  end.

(** A text that rich prints whatever tags are open around it: it holds
    no bracket followed by a slash, the start of every closing tag.  On a
    URL, identifier, keyword or path that fails this test [console.print]
    may raise [MarkupError] where the model goes on. *)
Definition no_closing_tag (s : string) : bool := negb (Py.contains s "[/").

(** [f"{keyword}"] for an [Optional[str]] *)
Definition keyword_text (keyword : option string) : string :=
  from_option id "None" keyword.

(** The matcher as the specification words it: every term of the
    lower-cased keyword scores at least the threshold against the
    lower-cased text. *)
Definition Matches (partial_ratio : string -> string -> Z)
    (text keyword : string) (threshold : Z) : Prop :=
  Forall (fun term => threshold <= partial_ratio term (Py.lower text))
    (Py.split (Py.lower keyword)).

(** Whether one attempt, given the answer [r] of the server, downloads
    the file: status 200, a destination that can be opened, and a body
    that arrives whole. *)
Definition attempt_succeeds (fs : gmap string node) (filename : string)
    (r : result response) : bool :=
  match r with
  | Ok resp =>
      (status_code resp =? 200) && Fs.can_open fs filename
      && match broken resp with None => true | Some _ => false end
  | Raise _ => false
  end.

(** What a failed attempt reports. *)
Definition failure_message (url : string) (fs : gmap string node)
    (filename : string) (r : result response) : message :=
  match r with
  | Raise e => DownloadError url e
  | Ok resp =>
      if status_code resp =? 200 then
        DownloadError url
          (if Fs.can_open fs filename
           then from_option id (OSError filename) (broken resp)
           else OSError filename)
      else BadStatus url (status_code resp)
  end.

(** The records of a failed attempt, as the loop writes them. *)
Definition failed_attempt (retries : Z) (m : message) (attempt : Z) : list event :=
  [Log ERROR m; Console m; Log INFO (Retrying (attempt + 1) retries)].



(** Whether the name of a file passes the keyword filter of
    [download_torrent]. *)
Definition passes (partial_ratio : string -> string -> Z)
    (keyword : option string) (name : string) : bool :=
  match truthy keyword with
  | Some k => match_terms partial_ratio name k 70
  | None => true
  end.

(** A program that requests [url] however the world answers. *)
Inductive requests (url : string) {A : Type} : prog A -> Prop :=
| requests_now k : requests url (Get url k)
| requests_after_get u k :
    (forall r, requests url (k r)) -> requests url (Get u k)
| requests_after_exists path k :
    (forall b, requests url (k b)) -> requests url (Exists path k)
| requests_after_store path received failure k :
    (forall r, requests url (k r)) -> requests url (Store path received failure k)
| requests_after_emit e k : requests url k -> requests url (Emit e k).

(** How the loop of [main] ends: with the exception of the first document
    that has no usable [identifier], if there is one. *)
Fixpoint loop_end (docs : list json) : result unit :=
  match docs with
  | [] => Ok tt
  | item :: rest =>
      match Json.subscript item "identifier" with
      | Raise e => Raise e
      | Ok _ => loop_end rest
      end
  end.

(** What [main] returns, read off the answer to the search request. *)
Definition main_result (answer : result response) : result unit :=
  match docs_of answer with
  | Raise _ => Ok tt
  | Ok (items, _) =>
      match Json.iter items with
      | Raise e => Raise e
      | Ok docs => loop_end docs
      end
  end.

(** ** The interactive loop

    [run_program] asks, round after round, for a choice of the menu.  The
    answers of the user are given as a list: for choice 1 what was typed as
    keyword and the number [IntPrompt] returned, together with the
    schedule of the workers during that search; for choice 2 nothing.
    ([Prompt.ask] with [choices] returns one of the choices only.)  The
    splash screen, the menu panel and the farewell line are not recorded
    in the journal. *)

Inductive answer : Type :=
| Search (typed : string) (num_items : Z) (workers : list choice)
| Quit.

(** How the loop ended: by choice 2, by an exception of [main], or still
    waiting for an answer when the list is used up. *)
Inductive session : Type :=
| Exited
| Crashed (e : exn)
| Waiting.

(** Lines 157-159: the keyword typed, stripped; [None] when nothing is
    left. *)
Definition keyword_entered (typed : string) : option string :=
  let keyword := Py.strip typed in
  if decide (keyword = "") then None else Some keyword.

(** Lines 165-167 *)
Definition query_for (keyword : option string) : string :=
  match truthy keyword with
  | Some k => "format:Torrent" +:+ " AND " +:+ k
  | None => "format:Torrent"
  end.

Section Program.

Variable partial_ratio : string -> string -> Z.
Variable repr : json -> string.
Variable download_dir : string.
Variable max_retries : Z.
Variable server : nat -> string -> result response.

Fixpoint run_program (answers : list answer) (w : world) : session * world :=
  match answers with
  | [] => (Waiting, w)
  | Quit :: _ => (Exited, w)
  | Search typed num_items workers :: later =>
      let keyword := keyword_entered typed in
      let query := query_for keyword in
      match main partial_ratio repr download_dir max_retries server
              workers query num_items keyword w with
      | (Ok _, w') => run_program later w'
      | (Raise e, w') => (Crashed e, w')
      end
  end.

End Program.

(** ** What a program may write *)

(** A program all of whose writes go to paths in [Q]. *)
Inductive stores_only (Q : string -> Prop) {A : Type} : prog A -> Prop :=
| stores_only_ret a : stores_only Q (Ret a)
| stores_only_get url k :
    (forall r, stores_only Q (k r)) -> stores_only Q (Get url k)
| stores_only_exists path k :
    (forall b, stores_only Q (k b)) -> stores_only Q (Exists path k)
| stores_only_store path received failure k :
    Q path -> (forall r, stores_only Q (k r)) ->
    stores_only Q (Store path received failure k)
| stores_only_emit e k : stores_only Q k -> stores_only Q (Emit e k).

(** A path that can be written and at which [fs] has an entry. *)
Definition occupied (fs : gmap string node) (path : string) : Prop :=
  path <> "" /\ Py.endswith path "/" = false /\ is_Some (fs !! path).

(** A program that leaves the entries of [fs] alone: it writes where [fs]
    has nothing or where no file can be opened, and a write that follows
    a check of existence is reached only when the check fails, which it
    does not at an occupied path. *)
Inductive spares (fs : gmap string node) {A : Type} : prog A -> Prop :=
| spares_ret a : spares fs (Ret a)
| spares_get url k : (forall r, spares fs (k r)) -> spares fs (Get url k)
| spares_exists path k :
    (forall b, spares fs (k b)) -> spares fs (Exists path k)
| spares_checked path k :
    occupied fs path -> spares fs (k true) -> spares fs (Exists path k)
| spares_store path received failure k :
    fs !! path = None \/ path = "" \/ Py.endswith path "/" = true ->
    (forall r, spares fs (k r)) ->
    spares fs (Store path received failure k)
| spares_emit e k : spares fs k -> spares fs (Emit e k).

(** The entries of [fs0] are still in [fs], unchanged. *)
Definition keeps (fs0 fs : gmap string node) : Prop :=
  forall path n, fs0 !! path = Some n -> fs !! path = Some n.

(** ** Concrete worlds and servers for the examples *)

Module Fixture.

(** A scorer to run examples with: 100 when the term occurs in the text,
    0 otherwise.  (It is not the partial ratio.) *)
Definition occurs (term text : string) : Z :=
  if Py.contains text term then 100 else 0.

Definition plain (v : json) : string := "[...]".

Definition body : list bytes :=
  [String.list_byte_of_string "d8:announce"; String.list_byte_of_string "e"].

(** A disk that holds the download directory and nothing else. *)
Definition disk : world := World {[ "torrent_files" := Dir ]} [] [].

Definition a_torrent : string := "https://archive.org/download/item1/a.torrent".
Definition b_torrent : string := "https://archive.org/download/item2/b.torrent".

(** A server that answers every request with the same status and body. *)
Definition status (code : Z) : nat -> string -> result response :=
  fun _ _ => Ok (Response code body None None).

(** A server that cannot be reached. *)
Definition unreachable : nat -> string -> result response :=
  fun _ _ => Raise (RequestException "timed out").

Definition doc (v : json) : result response := Ok (Response 200 [] None (Some v)).

Definition listing (names : list string) : json :=
  JDict [("files", JList (map (fun name => JDict [("name", JStr name)]) names))].

(** An archive with two items, one torrent each; downloads are answered
    with [download_status]. *)
Definition archive (download_status : Z) : nat -> string -> result response :=
  fun _ url =>
    if Py.startswith url "https://archive.org/advancedsearch.php" then
      doc (JDict [("response",
                   JDict [("docs", JList [JDict [("identifier", JStr "item1")];
                                          JDict [("identifier", JStr "item2")]])])])
    else if decide (url = "https://archive.org/metadata/item1") then
      doc (listing ["a.torrent"; "notes.txt"])
    else if decide (url = "https://archive.org/metadata/item2") then
      doc (listing ["b.torrent"])
    else if decide (url = "https://archive.org/metadata/item3") then
      doc (JDict [("created", JInt 1700000000)])
    else Ok (Response download_status body None None).

(** A schedule under which the second item is processed to its end
    before the first one does anything. *)
Definition second_first : list choice :=
  [Start; Start] ++ replicate 12 (Advance 1).

End Fixture.

(** ** Vocabulary of the further properties *)

(** Whether [download_torrent] selects a file: its name ends in
    [.torrent] and passes the keyword filter. *)
Definition wanted (partial_ratio : string -> string -> Z)
    (keyword : option string) (file : json) : bool :=
  match name_of file with
  | Ok name => Py.endswith name ".torrent" && passes partial_ratio keyword name
  | Raise _ => false
  end.

(** The [try] of [download_torrent] up to [response.json()]. *)
Definition metadata_of (r : result response) : result json :=
  and_then r (fun response =>
    and_then (raise_for_status response) (fun _ => response_json response)).

(** What [download_file] may report for a file of an item. *)
Definition reported_for (download_dir : string) (max_retries : Z)
    (identifier : string) (file : json) (o : DownloadOutcome) : Prop :=
  exists name,
    name_of file = Ok name
    /\ let url := torrent_url identifier name in
       o = Skipped (destination url download_dir)
       \/ o = Succeeded (destination url download_dir)
       \/ o = Failed url max_retries.

(** A path directly in [folder]: the folder joined with a name that holds
    no separator. *)
Definition in_folder (folder path : string) : Prop :=
  exists name, no_slash name = true /\ path = Py.path_join folder name.

(** *** More servers for the examples *)

Module Scenario.

(** A server whose first [failures] answers have status 500 and the
    others status 200. *)
Definition flaky (failures : nat) : nat -> string -> result response :=
  fun n _ =>
    if (n <? failures)%nat then Ok (Response 500 Fixture.body None None)
    else Ok (Response 200 Fixture.body None None).

(** A server whose bodies break off after the chunks of [Fixture.body]. *)
Definition cut_off : nat -> string -> result response :=
  fun _ _ => Ok (Response 200 Fixture.body (Some (RequestException "reset")) None).

(** A search answer without the key [response]. *)
Definition silent : nat -> string -> result response :=
  fun _ _ => Fixture.doc (JDict [("responseHeader", JDict [])]).

(** An item whose second entry has no name. *)
Definition damaged : nat -> string -> result response :=
  fun _ url =>
    if decide (url = "https://archive.org/metadata/item1") then
      Fixture.doc (JDict [("files", JList [JDict [("name", JStr "a.torrent")];
                                           JDict [("size", JInt 3)];
                                           JDict [("name", JStr "b.torrent")]])])
    else Ok (Response 200 Fixture.body None None).

(** A search answer whose second document has no identifier. *)
Definition mixed : nat -> string -> result response :=
  fun n url =>
    if Py.startswith url "https://archive.org/advancedsearch.php" then
      Fixture.doc (JDict [("response",
                   JDict [("docs", JList [JDict [("identifier", JStr "item1")];
                                          JDict [("title", JStr "untitled")];
                                          JDict [("identifier", JStr "item2")]])])])
    else Fixture.archive 200 n url.

End Scenario.

(** ** Sanity checks of the Python and file system helpers *)

Example lower_ex : Py.lower "Ubuntu DESKTOP" = "ubuntu desktop".
Proof. reflexivity. Qed.
Example split_ex : Py.split "  ubuntu   desktop " = ["ubuntu"; "desktop"].
Proof. reflexivity. Qed.
Example last_field_ex :
  Py.last_field "/" "https://archive.org/download/x/a.torrent" = "a.torrent".
Proof. reflexivity. Qed.
Example last_field_ex2 : Py.last_field "/" "a/b/" = "" /\ Py.last_field "/" "abc" = "abc".
Proof. split; reflexivity. Qed.
Example range_ex : Py.range 3 = [0; 1; 2] /\ Py.range (-2) = [].
Proof. split; reflexivity. Qed.
Example str_int_ex : Py.str_int 1000 = "1000" /\ Py.str_int (-7) = "-7" /\ Py.str_int 0 = "0".
Proof. repeat split; reflexivity. Qed.
Example path_join_ex :
  Py.path_join "torrent_files" "a.torrent" = "torrent_files/a.torrent"
  /\ Py.path_join "torrent_files" "" = "torrent_files/"
  /\ Py.path_join "out/" "" = "out/" /\ Py.path_join "" "x" = "x".
Proof. repeat split; reflexivity. Qed.
Example endswith_ex :
  Py.endswith "a.torrent" ".torrent" = true /\ Py.endswith "a.torrent.txt" ".torrent" = false
  /\ Py.endswith "torrent" ".torrent" = false.
Proof. repeat split; reflexivity. Qed.
Example locate_ex :
  Fs.locate "out//" = "out" /\ Fs.locate "//" = "/" /\ Fs.locate "a/b" = "a/b".
Proof. repeat split; reflexivity. Qed.
Example dirname_ex :
  Fs.dirname "a/b/c" = Some "a/b" /\ Fs.dirname "c" = None /\ Fs.dirname "/c" = Some "".
Proof. repeat split; reflexivity. Qed.

(** ** Strings *)

Lemma app_cons (c : ascii) (a b : string) : String c a +:+ b = String c (a +:+ b).
Proof. reflexivity. Qed.

Lemma app_empty_r (s : string) : s +:+ "" = s.
Proof. induction s as [|c s IH]; [reflexivity|]. by rewrite app_cons, IH. Qed.

Lemma app_assoc_string (a b c : string) : (a +:+ b) +:+ c = a +:+ (b +:+ c).
Proof. induction a as [|x a IH]; [reflexivity|]. by rewrite !app_cons, IH. Qed.

Lemma flush_nonempty (w : string) : w <> "" -> Py.flush w = [w].
Proof. intros H. unfold Py.flush. by destruct (decide (w = "")). Qed.

(** A run without white space is one term. *)
Lemma split_from_word (w s : string) :
  no_space s = true -> Py.split_from w s = Py.flush (w +:+ s).
Proof.
  revert w. induction s as [|c s IH]; intros w H; simpl in *.
  - by rewrite app_empty_r.
  - apply andb_true_iff in H as [Hc Hs]. apply negb_true_iff in Hc. rewrite Hc.
    rewrite IH by done. by rewrite app_assoc_string.
Qed.

(** A white-space character ends the term being read and starts the
    splitting afresh. *)
Lemma split_from_space (w a b : string) (c : ascii) :
  Py.isspace c = true ->
  Py.split_from w (a +:+ String c b) = (Py.split_from w a ++ Py.split b)%list.
Proof.
  intros Hc. revert w. induction a as [|x a IH]; intros w.
  - simpl. by rewrite Hc.
  - rewrite app_cons. simpl. destruct (Py.isspace x).
    + rewrite IH. by rewrite app_assoc.
    + apply IH.
Qed.

Lemma split_two_words (a b : string) (c : ascii) :
  a <> "" -> b <> "" -> no_space a = true -> no_space b = true ->
  Py.isspace c = true -> Py.split (a +:+ String c b) = [a; b].
Proof.
  intros Ha Hb Hsa Hsb Hc. unfold Py.split. rewrite split_from_space by done.
  unfold Py.split. rewrite !split_from_word by done. simpl.
  by rewrite !flush_nonempty.
Qed.

Lemma lower_char_space (c : ascii) : Py.isspace c = true -> Py.lower_char c = c.
Proof. destruct c as [[] [] [] [] [] [] [] []]; cbv; congruence. Qed.

Lemma split_blank (s : string) : blank s = true -> Py.split (Py.lower s) = [].
Proof.
  unfold Py.split. induction s as [|c s IH]; simpl; [done|].
  intros [Hc Hs]%andb_true_iff. rewrite lower_char_space by done.
  rewrite Hc. simpl. auto.
Qed.

(** ** The matcher *)

Section Matcher.

Variable partial_ratio : string -> string -> Z.

Lemma terms_loop_spec (terms : list string) (text : string) (threshold : Z) :
  terms_loop partial_ratio terms text threshold = true
  <-> Forall (fun term => threshold <= partial_ratio term (Py.lower text)) terms.
Proof.
  induction terms as [|term terms IH]; simpl.
  - split; [constructor | done].
  - destruct (Z.ltb_spec (partial_ratio term (Py.lower text)) threshold) as [Hlt|Hge].
    + split; [done|]. intros H. inversion H; subst. lia.
    + rewrite IH. split.
      * intros H. by constructor.
      * intros H. by inversion H.
Qed.

(** C2. [match_terms text keyword threshold] is true exactly when every
    white-space separated term of the lower-cased keyword scores at least
    [threshold] under the partial ratio against the lower-cased text. *)
Theorem match_terms_conjunctive (text keyword : string) (threshold : Z) :
  match_terms partial_ratio text keyword threshold = true
  <-> Matches partial_ratio text keyword threshold.
Proof. unfold match_terms, Matches. apply terms_loop_spec. Qed.

(** One term below the threshold is enough to reject. *)
Lemma match_terms_rejects (text keyword term : string) (threshold : Z) :
  term ∈ Py.split (Py.lower keyword) ->
  partial_ratio term (Py.lower text) < threshold ->
  match_terms partial_ratio text keyword threshold = false.
Proof.
  intros Hin Hlt. apply not_true_is_false. intros H.
  apply terms_loop_spec in H.
  rewrite Forall_forall in H. specialize (H term Hin). lia.
Qed.

Lemma match_terms_blank (text keyword : string) (threshold : Z) :
  blank keyword = true -> match_terms partial_ratio text keyword threshold = true.
Proof. intros H. unfold match_terms. by rewrite split_blank. Qed.

Lemma keep_torrents_named (entries kept : list json) :
  keep_torrents entries = Ok kept ->
  Forall (fun file => exists name, name_of file = Ok name
                                   /\ Py.endswith name ".torrent" = true) kept.
Proof.
  revert kept. induction entries as [|file rest IH]; simpl; intros kept H.
  - injection H as <-. constructor.
  - destruct (name_of file) as [name|e] eqn:Hn; simpl in H; [|done].
    destruct (keep_torrents rest) as [kept'|e]; simpl in H; [|done].
    injection H as <-. specialize (IH _ eq_refl).
    destruct (Py.endswith name ".torrent") eqn:He; [|done].
    constructor; [eauto | done].
Qed.

Lemma keep_matching_all (keyword : string) (files : list json) :
  Forall (fun file => exists name, name_of file = Ok name
                        /\ match_terms partial_ratio name keyword 70 = true) files ->
  keep_matching partial_ratio keyword files = Ok files.
Proof.
  induction 1 as [|file rest (name & Hn & Hm) _ IH]; simpl; [done|].
  rewrite Hn. simpl. rewrite IH. simpl. by rewrite Hm.
Qed.

(** C9. A keyword that is empty or made of white space only matches every
    text, whatever the threshold; hence a blank keyword that is not [None]
    selects the same files as no keyword. *)
Theorem blank_keyword_matches_all (keyword : string) :
  blank keyword = true ->
  (forall text threshold, match_terms partial_ratio text keyword threshold = true)
  /\ (forall metadata,
        select_files partial_ratio metadata (Some keyword)
        = select_files partial_ratio metadata None).
Proof.
  intros Hb. split.
  - intros text threshold. by apply match_terms_blank.
  - intros metadata. unfold select_files.
    destruct (Json.subscript metadata "files") as [listed|e]; [|done]. simpl.
    destruct (Json.iter listed) as [entries|e]; [|done]. simpl.
    destruct (keep_torrents entries) as [kept|e] eqn:Hk; [|done]. simpl.
    destruct (decide (keyword = "")); [done|].
    apply keep_matching_all. apply keep_torrents_named in Hk.
    eapply Forall_impl; [exact Hk|]. intros file (name & Hn & _).
    exists name. split; [done|]. by apply match_terms_blank.
Qed.

End Matcher.

(** ** Paths and the file system *)

Lemma endswith_cons (c : ascii) (s suffix : string) :
  Py.endswith (String c s) suffix = false -> Py.endswith s suffix = false.
Proof. simpl. by intros [_ H]%orb_false_iff. Qed.

Lemma rstrip_no_trailing (p : string) : Py.endswith p "/" = false -> Fs.rstrip p = p.
Proof.
  induction p as [|c p IH]; [done|]. intros H.
  pose proof (endswith_cons _ _ _ H) as Hp. specialize (IH Hp).
  simpl. rewrite IH. destruct p as [|c' p]; [|done].
  destruct (decide (c = "/"%char)) as [->|]; [|done].
  by vm_compute in H.
Qed.

Lemma locate_no_trailing (p : string) :
  p <> "" -> Py.endswith p "/" = false -> Fs.locate p = p.
Proof.
  intros Hne H. unfold Fs.locate. rewrite rstrip_no_trailing by done.
  by destruct (decide (p = "")).
Qed.

Lemma rstrip_length (s : string) : (String.length (Fs.rstrip s) <= String.length s)%nat.
Proof.
  induction s as [|c s IH]; simpl; [lia|].
  destruct (Fs.rstrip s); [destruct (decide _)|]; simpl in *; lia.
Qed.

Lemma dirname_length (p d : string) :
  Fs.dirname p = Some d -> (String.length d < String.length p)%nat.
Proof.
  revert d. induction p as [|c p IH]; simpl; intros d H; [done|].
  destruct (Fs.dirname p) as [d'|].
  - injection H as <-. specialize (IH _ eq_refl). simpl. lia.
  - destruct (decide _); [|done]. injection H as <-. simpl. lia.
Qed.

Section FileSystem.

Variable fs : gmap string node.

Lemma lookup_written (p : string) (c : bytes) :
  p <> "" -> Py.endswith p "/" = false ->
  Fs.lookup (<[p := File c]> fs) p = Some (File c).
Proof.
  intros Hne He. unfold Fs.lookup. rewrite locate_no_trailing by done.
  destruct (decide (p = "")); [done|].
  destruct (decide (p = "/")) as [->|]; [done|].
  rewrite lookup_insert_eq. by rewrite He.
Qed.

Lemma lookup_elsewhere (p q : string) (n : node) :
  Fs.locate q <> p -> Fs.lookup (<[p := n]> fs) q = Fs.lookup fs q.
Proof. intros H. unfold Fs.lookup. by rewrite lookup_insert_ne. Qed.

Lemma is_dir_elsewhere (p q : string) (n : node) :
  Fs.locate q <> p -> Fs.is_dir (<[p := n]> fs) q = Fs.is_dir fs q.
Proof. intros H. unfold Fs.is_dir. by rewrite lookup_elsewhere. Qed.

Lemma locate_dirname (p d : string) :
  Py.endswith p "/" = false -> Fs.dirname p = Some d -> Fs.locate d <> p.
Proof.
  intros He Hd Heq. apply dirname_length in Hd.
  unfold Fs.locate in Heq. destruct (decide (Fs.rstrip d = "")).
  - subst p. done.
  - pose proof (rstrip_length d). rewrite Heq in *. lia.
Qed.

Lemma can_open_shape (p : string) :
  Fs.can_open fs p = true -> p <> "" /\ Py.endswith p "/" = false.
Proof.
  unfold Fs.can_open. intros H. repeat (apply andb_true_iff in H as [H ?]).
  split.
  - apply negb_true_iff in H. by apply bool_decide_eq_false in H.
  - by apply negb_true_iff.
Qed.

(** Writing a file does not change whether it can be opened again. *)
Lemma can_open_written (p : string) (c : bytes) :
  Fs.can_open fs p = true -> Fs.can_open (<[p := File c]> fs) p = true.
Proof.
  intros H. destruct (can_open_shape _ H) as [Hne He].
  unfold Fs.can_open in *. repeat (apply andb_true_iff in H as [H ?]).
  repeat (apply andb_true_iff; split); try done.
  - unfold Fs.is_dir. by rewrite lookup_written.
  - destruct (Fs.dirname p) as [d|] eqn:Hd; [|done].
    destruct (bool_decide (d = "")); [done|]. simpl in *.
    rewrite is_dir_elsewhere; [done|]. by eapply locate_dirname.
Qed.

Lemma exists_written (p : string) (c : bytes) :
  Fs.can_open fs p = true -> Fs.exists_ (<[p := File c]> fs) p = true.
Proof.
  intros [Hne He]%can_open_shape. unfold Fs.exists_.
  rewrite lookup_written by done. by apply bool_decide_eq_true.
Qed.

Lemma exists_dir (p : string) :
  Fs.is_dir fs p = true -> Fs.exists_ fs p = true.
Proof.
  unfold Fs.is_dir, Fs.exists_. by destruct (Fs.lookup fs p) as [[]|].
Qed.

End FileSystem.

(** ** Facts about runs *)

Section Exec.

Variable server : nat -> string -> result response.

Lemma exec_bind {A B : Type} (p : prog A) (f : A -> prog B) (w : world) :
  exec server (bind p f) w
  = exec server (f (exec server p w).1) (exec server p w).2.
Proof.
  revert w. induction p as [a|url k IH|path k IH|path rc fl k IH|e k IH];
    intros w; simpl; auto.
  destruct (Fs.write_chunks (files w) path rc fl). apply IH.
Qed.

(** A run only adds to the requests and to the journal. *)
Lemma exec_extends {A : Type} (p : prog A) (w : world) :
  exists ss js, sent (exec server p w).2 = (sent w ++ ss)%list
                /\ journal (exec server p w).2 = (journal w ++ js)%list.
Proof.
  revert w. induction p as [a|url k IH|path k IH|path rc fl k IH|e k IH];
    intros w; simpl.
  - exists [], []. by rewrite !app_nil_r.
  - destruct (IH (server (length (sent w)) url) (request url w)) as (ss & js & Hs & Hj).
    exists (url :: ss), js. rewrite Hs, Hj. simpl. by rewrite <- app_assoc.
  - apply IH.
  - destruct (Fs.write_chunks (files w) path rc fl) as [r fs].
    destruct (IH r (with_files fs w)) as (ss & js & Hs & Hj). eauto.
  - destruct (IH (record e w)) as (ss & js & Hs & Hj).
    exists ss, (e :: js). rewrite Hs, Hj. simpl. by rewrite <- app_assoc.
Qed.

End Exec.

(** Unfold the updates of the world and bring the lists to normal form. *)
Ltac world :=
  unfold record, with_files, request; simpl;
  rewrite <- ?app_assoc; simpl.

Lemma added_app {A : Type} (l k : list A) : added l (l ++ k) = k.
Proof. unfold added. apply drop_app_length. Qed.


(** ** The worker pool runs every task *)

Section Pool.

Variable server : nat -> string -> result response.

(** [n] requests had been made when the run began, so what the run has
    requested up to a world [w] is [drop n (sent w)]. *)
Variable n : nat.

Lemma drop_request_keeps (l : list string) (u v : string) :
  u ∈ drop n l -> u ∈ drop n (l ++ [v]).
Proof. intros H. rewrite drop_app. apply elem_of_app. by left. Qed.

Lemma drop_request_new (l : list string) (u : string) :
  (n <= length l)%nat -> u ∈ drop n (l ++ [u]).
Proof.
  intros H. rewrite drop_app. replace (n - length l)%nat with 0%nat by lia.
  apply elem_of_app. right. apply list_elem_of_here.
Qed.

Lemma step_sent {A : Type} (p : prog A) (w : world) (u : string) :
  u ∈ drop n (sent w) -> u ∈ drop n (sent (step server p w).2).
Proof.
  destruct p; simpl; try done.
  - apply drop_request_keeps.
  - by destruct (Fs.write_chunks _ _ _ _).
Qed.

Lemma step_begun {A : Type} (p : prog A) (w : world) :
  (n <= length (sent w))%nat -> (n <= length (sent (step server p w).2))%nat.
Proof.
  destruct p; simpl; try done.
  - rewrite length_app. simpl. lia.
  - by destruct (Fs.write_chunks _ _ _ _).
Qed.

Lemma exec_sent {A : Type} (p : prog A) :
  forall (w : world) (u : string),
    u ∈ drop n (sent w) -> u ∈ drop n (sent (exec server p w).2).
Proof.
  induction p as [a|url k IH|path k IH|path rc fl k IH|e k IH]; intros w u H; simpl.
  - done.
  - apply IH. simpl. by apply drop_request_keeps.
  - by apply IH.
  - destruct (Fs.write_chunks _ _ _ _). by apply IH.
  - by apply IH.
Qed.

Lemma exec_begun {A : Type} (p : prog A) (w : world) :
  (n <= length (sent w))%nat -> (n <= length (sent (exec server p w).2))%nat.
Proof.
  destruct (exec_extends server p w) as (ss & js & -> & _).
  rewrite length_app. lia.
Qed.

Lemma exec_requests {A : Type} (p : prog A) (url : string) :
  requests url p ->
  forall w, (n <= length (sent w))%nat -> url ∈ drop n (sent (exec server p w).2).
Proof.
  induction 1 as [k|u k _ IH|path k _ IH|path rc fl k _ IH|e k _ IH];
    intros w Hn; simpl.
  - apply exec_sent. simpl. by apply drop_request_new.
  - apply IH. simpl. rewrite length_app. simpl. lia.
  - by apply IH.
  - destruct (Fs.write_chunks _ _ _ _). by apply IH.
  - by apply IH.
Qed.

Lemma step_requests {A : Type} (p : prog A) (url : string) (w : world) :
  requests url p -> (n <= length (sent w))%nat ->
  url ∈ drop n (sent (step server p w).2)
  \/ (requests url (step server p w).1 /\ is_done (step server p w).1 = false).
Proof.
  assert (forall q : prog A, requests url q -> is_done q = false) as Hnd.
  { by destruct 1. }
  destruct 1 as [k|u k H|path k H|path rc fl k H|e k H]; intros Hn; simpl.
  - left. by apply drop_request_new.
  - right. split; [apply H|apply Hnd, H].
  - right. split; [apply H|apply Hnd, H].
  - destruct (Fs.write_chunks _ _ _ _). right. split; [apply H|apply Hnd, H].
  - right. split; [apply H|by apply Hnd].
Qed.

Lemma drain_sent (tasks : list (prog unit)) :
  forall (w : world) (u : string),
    u ∈ drop n (sent w) -> u ∈ drop n (sent (drain server tasks w)).
Proof.
  induction tasks as [|t tasks IH]; intros w u H; simpl; [done|].
  apply IH. by apply exec_sent.
Qed.

Lemma drain_requests (tasks : list (prog unit)) (url : string) :
  forall w, (n <= length (sent w))%nat -> List.Exists (requests url) tasks ->
            url ∈ drop n (sent (drain server tasks w)).
Proof.
  induction tasks as [|t tasks IH]; intros w Hn H; simpl.
  - by apply Exists_nil in H.
  - apply Exists_cons in H as [H|H].
    + apply drain_sent. by apply exec_requests.
    + apply IH; [by apply exec_begun|done].
Qed.

Lemma run_pool_sent (sched : list choice) :
  forall (running queue : list (prog unit)) (w : world) (u : string),
    u ∈ drop n (sent w) -> u ∈ drop n (sent (run_pool server sched running queue w)).
Proof.
  induction sched as [|[|i] sched IH]; intros running queue w u H; simpl.
  - by apply drain_sent.
  - destruct queue as [|t queue]; [by apply IH|].
    destruct (length running <? max_workers)%nat; by apply IH.
  - destruct (running !! i) as [t|]; [|by apply IH].
    pose proof (step_sent t w u H) as Hs.
    destruct (step server t w) as [t' w']. by apply IH.
Qed.

(** Whatever the schedule, a task that was submitted is run: what it is
    bound to request is requested by the pool itself, after the [n]
    requests made before, and before the pool is done. *)
Theorem run_pool_requests (url : string) (sched : list choice) :
  forall (running queue : list (prog unit)) (w : world),
    (n <= length (sent w))%nat ->
    List.Exists (requests url) (running ++ queue) ->
    url ∈ drop n (sent (run_pool server sched running queue w)).
Proof.
  induction sched as [|[|i] sched IH]; intros running queue w Hn H; simpl.
  - by apply drain_requests.
  - destruct queue as [|t queue]; [by apply IH|].
    destruct (length running <? max_workers)%nat; [|by apply IH].
    apply IH; [done|]. by rewrite <- app_assoc.
  - destruct (running !! i) as [t|] eqn:Hi; [|by apply IH].
    pose proof (step_requests t url w) as Hstep.
    pose proof (step_begun t w Hn) as Hn'.
    destruct (step server t w) as [t' w']. simpl in Hstep, Hn'.
    apply Exists_app in H as [H|H]; [|apply IH; [done|]; apply Exists_app; by right].
    apply Exists_exists in H as (t0 & Hin & Hreq).
    apply list_elem_of_lookup in Hin as [j Hj].
    destruct (decide (j = i)) as [->|Hne].
    + assert (t0 = t) as -> by congruence.
      destruct (Hstep Hreq Hn) as [Hsent|[Hreq' Hnd]]; [by apply run_pool_sent|].
      rewrite Hnd. apply IH; [done|]. apply Exists_app. left. apply Exists_exists.
      exists t'. split; [|done]. apply list_elem_of_lookup. exists i.
      apply list_lookup_insert_eq. by eapply lookup_lt_Some.
    + apply IH; [done|]. apply Exists_app. left. apply Exists_exists.
      exists t0. split; [|done].
      destruct (is_done t').
      * apply list_elem_of_lookup.
        destruct (decide (j < i)%nat).
        -- exists j. by rewrite list_lookup_delete_lt.
        -- exists (pred j). rewrite list_lookup_delete_ge by lia.
           replace (S (pred j)) with j by lia. done.
      * apply list_elem_of_lookup. exists j. by rewrite list_lookup_insert_ne.
Qed.

End Pool.

(** ** download_file *)

Section Download.

Variable server : nat -> string -> result response.
Variables (url filename : string) (retries : Z).

(** What one attempt does, by the answer of the server. *)
Lemma fetch_once_run (w : world) :
  exec server (fetch_once url filename) w
  = match server (length (sent w)) url with
    | Raise e => (Raise e, request url w)
    | Ok resp =>
        if status_code resp =? 200 then
          if Fs.can_open (files w) filename then
            let fs := <[filename := File (concat (chunks resp))]> (files w) in
            match broken resp with
            | Some e => (Raise e, World fs (sent w ++ [url]) (journal w))
            | None =>
                (Ok true,
                 World fs (sent w ++ [url])
                   (journal w ++ [Log INFO (Downloaded filename);
                                  Console (Downloaded filename)]))
            end
          else (Raise (OSError filename), request url w)
        else
          (Ok false,
           World (files w) (sent w ++ [url])
             (journal w ++ [Log ERROR (BadStatus url (status_code resp));
                            Console (BadStatus url (status_code resp))]))
    end.
Proof.
  unfold fetch_once. simpl.
  destruct (server (length (sent w)) url) as [resp|e]; simpl; [|done].
  destruct (status_code resp =? 200); simpl.
  - unfold Fs.write_chunks.
    destruct (Fs.can_open (files w) filename); simpl; [|done].
    destruct (broken resp); simpl; [done|]. by world.
  - by world.
Qed.

Lemma attempt_succeeds_can_open (fs fs' : gmap string node) (r : result response) :
  Fs.can_open fs' filename = Fs.can_open fs filename ->
  attempt_succeeds fs' filename r = attempt_succeeds fs filename r.
Proof. intros H. unfold attempt_succeeds. by rewrite H. Qed.

Lemma failure_message_can_open (fs fs' : gmap string node) (r : result response) :
  Fs.can_open fs' filename = Fs.can_open fs filename ->
  failure_message url fs' filename r = failure_message url fs filename r.
Proof. intros H. unfold failure_message. by rewrite H. Qed.

(** A failed attempt: the request is recorded, the error is logged and
    printed, the retry is announced, and the destination can be opened
    afterwards exactly when it could before. *)
Lemma attempt_fails_run (w : world) (attempt : Z) (todo : list Z) :
  attempt_succeeds (files w) filename (server (length (sent w)) url) = false ->
  exists fs,
    exec server (attempts url filename retries (attempt :: todo)) w
    = exec server (attempts url filename retries todo)
        (World fs (sent w ++ [url])
           (journal w ++ failed_attempt retries
              (failure_message url (files w) filename (server (length (sent w)) url))
              attempt))
    /\ Fs.can_open fs filename = Fs.can_open (files w) filename.
Proof.
  intros Hf. cbn [attempts]. rewrite exec_bind, fetch_once_run.
  unfold attempt_succeeds, failure_message, failed_attempt in *.
  destruct (server (length (sent w)) url) as [resp|e]; simpl.
  - destruct (status_code resp =? 200); simpl in *.
    + destruct (Fs.can_open (files w) filename) eqn:Hc; simpl in *.
      * destruct (broken resp) as [e|]; [|done]. simpl.
        eexists. split; [by world|]. by apply can_open_written.
      * exists (files w). split; [by world|done].
    + exists (files w). split; [by world|done].
  - exists (files w). split; [by world|done].
Qed.


End Download.

(** ** What the journal of a failed download shows *)

Section FailedAttempts.

Variables (retries : Z) (report : nat -> message).

Let events (l : list nat) : list event :=
  flat_map (fun i => failed_attempt retries (report i) (Z.of_nat i)) l.

Hypothesis report_error :
  forall i, attempt_error (Log ERROR (report i)) = Some (report i).

Lemma outcomes_failed (l : list nat) : outcomes (events l) = [].
Proof.
  induction l as [|i l IH]; [done|]. unfold outcomes, events in *. simpl.
  pose proof (report_error i) as H. by destruct (report i).
Qed.


Lemma attempt_errors_failed (l : list nat) :
  attempt_errors (events l) = map report l.
Proof.
  induction l as [|i l IH]; [done|]. pose proof (report_error i) as H.
  unfold attempt_errors, events in *. simpl.
  destruct (report i); try done; simpl; f_equal; exact IH.
Qed.

End FailedAttempts.

Lemma attempt_error_failure (url : string) (fs : gmap string node)
    (filename : string) (r : result response) :
  attempt_error (Log ERROR (failure_message url fs filename r))
  = Some (failure_message url fs filename r).
Proof.
  unfold failure_message. destruct r as [resp|e]; [|done].
  by destruct (status_code resp =? 200).
Qed.



Section Retry.

Variable server : nat -> string -> result response.
Variables (url dest_folder : string) (retries : Z).

Let filename : string := destination url dest_folder.

(** The destination exists: nothing is requested, nothing is written. *)
Lemma download_file_present (w : world) :
  Fs.exists_ (files w) filename = true ->
  exec server (download_file url dest_folder retries) w
  = (tt, World (files w) (sent w)
           (journal w ++ [Log INFO (AlreadyExists filename);
                          Console (AlreadyExists filename)])).
Proof.
  intros H. unfold download_file. fold filename. simpl. rewrite H. simpl. by world.
Qed.

Lemma download_file_absent (w : world) :
  Fs.exists_ (files w) filename = false ->
  exec server (download_file url dest_folder retries) w
  = let r := exec server (attempts url filename retries (Py.range retries)) w in
    if r.1 then (tt, r.2)
    else (tt, World (files r.2) (sent r.2)
                (journal r.2 ++ [Log ERROR (GaveUp retries url);
                                 Console (GaveUp retries url)])).
Proof.
  intros H. unfold download_file. fold filename. simpl. rewrite H.
  rewrite exec_bind. simpl.
  destruct (exec server (attempts url filename retries (Py.range retries)) w) as [[] w'];
    simpl; [done|]. by world.
Qed.


End Retry.

Section Outcome.

Variable server : nat -> string -> result response.
Variables (url filename : string) (retries : Z).

(** A successful attempt ends the loop with the file written. *)
Lemma attempt_succeeds_run (w : world) (attempt : Z) (todo : list Z) :
  attempt_succeeds (files w) filename (server (length (sent w)) url) = true ->
  exists resp,
    server (length (sent w)) url = Ok resp
    /\ exec server (attempts url filename retries (attempt :: todo)) w
       = (true,
          World (<[filename := File (concat (chunks resp))]> (files w))
            (sent w ++ [url])
            (journal w ++ [Log INFO (Downloaded filename);
                           Console (Downloaded filename)])).
Proof.
  intros Hs. cbn [attempts]. rewrite exec_bind, fetch_once_run.
  unfold attempt_succeeds in Hs.
  destruct (server (length (sent w)) url) as [resp|e]; [|done].
  exists resp. split; [done|].
  destruct (status_code resp =? 200); [|done].
  destruct (Fs.can_open (files w) filename); [|done].
  by destruct (broken resp).
Qed.

Lemma outcomes_failed_attempt (fs : gmap string node) (r : result response)
    (attempt : Z) :
  outcomes (failed_attempt retries (failure_message url fs filename r) attempt) = [].
Proof.
  unfold failure_message. destruct r as [resp|e]; [|done].
  by destruct (status_code resp =? 200).
Qed.

(** However the server answers: the loop is left by [return] exactly when
    a download was reported, and then the destination exists. *)
Lemma attempts_outcome (todo : list Z) :
  forall w : world,
    let r := exec server (attempts url filename retries todo) w in
    exists js,
      journal r.2 = (journal w ++ js)%list
      /\ if r.1
         then Fs.exists_ (files r.2) filename = true
              /\ outcomes js = [Succeeded filename]
         else outcomes js = [].
Proof.
  induction todo as [|attempt todo IH]; intros w; cbn zeta.
  - exists []. simpl. by rewrite app_nil_r.
  - destruct (attempt_succeeds (files w) filename (server (length (sent w)) url)) eqn:Hs.
    + destruct (attempt_succeeds_run w attempt todo Hs) as (resp & Hr & ->). simpl.
      eexists. split; [done|]. split; [|done].
      apply exists_written. unfold attempt_succeeds in Hs. rewrite Hr in Hs.
      by destruct (status_code resp =? 200), (Fs.can_open (files w) filename).
    + destruct (attempt_fails_run server url filename retries w attempt todo Hs)
        as (fs & -> & _).
      match goal with |- context [exec server _ ?w1] =>
        destruct (IH w1) as (js & Hj & Hout) end.
      simpl in Hj. rewrite <- app_assoc in Hj.
      eexists. split; [exact Hj|].
      unfold outcomes in *. rewrite omap_app.
      fold (outcomes (failed_attempt retries
              (failure_message url (files w) filename (server (length (sent w)) url))
              attempt)).
      rewrite outcomes_failed_attempt. exact Hout.
Qed.

End Outcome.

Section Idempotence.

Variables (url dest_folder : string).

Let filename : string := destination url dest_folder.

(** After a run that reported a skip or a download, the destination
    exists. *)
Lemma download_file_leaves_file (server : nat -> string -> result response)
    (retries : Z) (w : world) :
  let w1 := (exec server (download_file url dest_folder retries) w).2 in
  outcomes (added (journal w) (journal w1)) = [Skipped filename]
  \/ outcomes (added (journal w) (journal w1)) = [Succeeded filename] ->
  Fs.exists_ (files w1) filename = true.
Proof.
  cbn zeta. destruct (Fs.exists_ (files w) filename) eqn:He.
  - rewrite download_file_present by done. done.
  - rewrite download_file_absent by done. cbn zeta. fold filename.
    destruct (attempts_outcome server url filename retries (Py.range retries) w)
      as (js & Hj & Hout).
    destruct (exec server (attempts url filename retries (Py.range retries)) w)
      as [[] w1]; simpl in *.
    + tauto.
    + rewrite Hj, <- app_assoc, added_app. unfold outcomes in *.
      rewrite omap_app, Hout. simpl. intros [?|?]; done.
Qed.

(** C1, as the code has it.  When the destination exists,
    [download_file] reports a skip without any request and without
    touching the files.  Hence a second run reports a skip and leaves the
    files as they are whenever the first run reported a skip or a
    download.  (After a first run that failed the file may be missing, and
    the second run tries again.) *)
Theorem download_file_idempotent
    (server1 server2 : nat -> string -> result response)
    (retries1 retries2 : Z) (w : world) :
  (Fs.exists_ (files w) filename = true ->
   exec server1 (download_file url dest_folder retries1) w
   = (tt, World (files w) (sent w)
            (journal w ++ [Log INFO (AlreadyExists filename);
                           Console (AlreadyExists filename)])))
  /\ (let w1 := (exec server1 (download_file url dest_folder retries1) w).2 in
      let w2 := (exec server2 (download_file url dest_folder retries2) w1).2 in
      outcomes (added (journal w) (journal w1)) = [Skipped filename]
      \/ outcomes (added (journal w) (journal w1)) = [Succeeded filename] ->
      outcomes (added (journal w1) (journal w2)) = [Skipped filename]
      /\ files w2 = files w1 /\ sent w2 = sent w1).
Proof.
  split; [apply download_file_present|].
  cbn zeta. intros H. apply download_file_leaves_file in H.
  rewrite (download_file_present server2) by done. simpl.
  by rewrite added_app.
Qed.

End Idempotence.

(** ** One fetch *)

(** C5, as the code has it.  One attempt leaves the files alone and
    reports the status when the response has any status other than 200
    (201 or 204 included), and leaves them alone when the request raises;
    on a response with status 200 whose destination can be opened and
    whose body arrives whole, it writes the body to the destination and
    reports the download.  So the destination changes only on a response
    with status 200. *)
Theorem fetch_once_writes_on_200 (server : nat -> string -> result response)
    (url filename : string) (w : world) :
  let answer := server (length (sent w)) url in
  let run := exec server (fetch_once url filename) w in
  (forall resp, answer = Ok resp -> status_code resp <> 200 ->
     run = (Ok false,
            World (files w) (sent w ++ [url])
              (journal w ++ [Log ERROR (BadStatus url (status_code resp));
                             Console (BadStatus url (status_code resp))])))
  /\ (forall e, answer = Raise e -> run = (Raise e, request url w))
  /\ (forall resp, answer = Ok resp -> status_code resp = 200 ->
        Fs.can_open (files w) filename = true -> broken resp = None ->
        run = (Ok true,
               World (<[filename := File (concat (chunks resp))]> (files w))
                 (sent w ++ [url])
                 (journal w ++ [Log INFO (Downloaded filename);
                                Console (Downloaded filename)])))
  /\ (files run.2 <> files w ->
      exists resp, answer = Ok resp /\ status_code resp = 200).
Proof.
  cbn zeta. rewrite fetch_once_run.
  destruct (server (length (sent w)) url) as [resp|e].
  - destruct (Z.eqb_spec (status_code resp) 200) as [H200|H200].
    + split; [by intros resp' [= <-] Hc|].
      split; [done|].
      split; [by intros resp' [= <-] _ -> ->|]. eauto.
    + split; [by intros resp' [= <-] _|].
      split; [done|].
      split; [by intros resp' [= <-] ?|]. done.
  - split; [done|].
    split; [by intros e' [= <-]|].
    split; done.
Qed.

(** ** The destination path *)

Lemma last_field_from_no_slash (field seg : string) :
  no_slash seg = true -> Py.last_field_from "/" field seg = field +:+ seg.
Proof.
  revert field. induction seg as [|c seg IH]; intros field H; simpl in *.
  - by rewrite app_empty_r.
  - apply andb_true_iff in H as [Hc Hs]. apply negb_true_iff in Hc.
    apply bool_decide_eq_false in Hc. destruct (decide (c = "/"%char)); [done|].
    rewrite IH by done. by rewrite app_assoc_string.
Qed.

(** The last field is what follows the last separator. *)
Lemma last_field_after_slash (field pre seg : string) :
  no_slash seg = true ->
  Py.last_field_from "/" field (pre +:+ String "/" seg) = seg.
Proof.
  intros H. revert field. induction pre as [|c pre IH]; intros field.
  - simpl. by rewrite last_field_from_no_slash.
  - rewrite app_cons. simpl. destruct (decide (c = "/"%char)); apply IH.
Qed.

Lemma endswith_slash (s : string) :
  Py.endswith s "/" = true -> exists pre, s = pre +:+ "/".
Proof.
  induction s as [|c s IH]; [done|]. simpl.
  intros [H|H]%orb_true_iff.
  - apply bool_decide_eq_true in H. exists "". by rewrite H.
  - destruct (IH H) as [pre ->]. by exists (String c pre).
Qed.

Lemma rstrip_slash (d : string) : Fs.rstrip (d +:+ "/") = Fs.rstrip d.
Proof.
  induction d as [|c d IH]; [done|]. rewrite app_cons. simpl. by rewrite IH.
Qed.

Lemma locate_slash (d : string) : Fs.locate (d +:+ "/") = Fs.locate d.
Proof. unfold Fs.locate. by rewrite rstrip_slash. Qed.

Lemma is_dir_slash (fs : gmap string node) (d : string) :
  Fs.is_dir fs d = true -> Fs.is_dir fs (d +:+ "/") = true.
Proof.
  unfold Fs.is_dir, Fs.lookup. rewrite locate_slash.
  destruct (decide (d = "")) as [->|Hd]; [done|].
  destruct (decide (d +:+ "/" = "")) as [He|_].
  { by destruct d. }
  destruct (decide (Fs.locate d = "/")); [done|].
  destruct (fs !! Fs.locate d) as [[]|]; [done| |done].
  by destruct (Py.endswith d "/").
Qed.

(** Joining a directory with the empty name gives the directory again. *)
Lemma path_join_empty (fs : gmap string node) (d : string) :
  Fs.is_dir fs d = true ->
  Fs.locate (Py.path_join d "") = Fs.locate d
  /\ Fs.is_dir fs (Py.path_join d "") = true.
Proof.
  intros H. unfold Py.path_join. simpl.
  destruct (decide (d = "")) as [->|_]; [done|].
  destruct (Py.endswith d "/").
  - by rewrite app_empty_r.
  - rewrite locate_slash. split; [done|]. by apply is_dir_slash.
Qed.

(** C10. [download_file] first looks for the destination folder joined
    with what follows the last [/] of the URL.  For a URL that ends in [/]
    this is the folder joined with the empty name, which names the folder
    itself; the folder exists (the script creates [download_dir] when it
    is loaded), so the download is skipped without any request. *)
Theorem trailing_slash_url_skipped (url dest_folder : string) :
  (forall retries, exists k,
     download_file url dest_folder retries
     = Exists (Py.path_join dest_folder (Py.last_field "/" url)) k)
  /\ (forall pre seg, url = pre +:+ "/" +:+ seg -> no_slash seg = true ->
        Py.last_field "/" url = seg)
  /\ (no_slash url = true -> Py.last_field "/" url = url)
  /\ (forall server retries w,
        Py.endswith url "/" = true ->
        Fs.is_dir (files w) dest_folder = true ->
        destination url dest_folder = Py.path_join dest_folder ""
        /\ Fs.locate (destination url dest_folder) = Fs.locate dest_folder
        /\ exec server (download_file url dest_folder retries) w
           = (tt, World (files w) (sent w)
                    (journal w
                     ++ [Log INFO (AlreadyExists (destination url dest_folder));
                         Console (AlreadyExists (destination url dest_folder))]))).
Proof.
  split; [|split; [|split]].
  - intros retries. eexists. unfold download_file, destination. reflexivity.
  - intros pre seg -> Hs. by apply last_field_after_slash.
  - intros H. unfold Py.last_field. by rewrite last_field_from_no_slash.
  - intros server retries w He Hd.
    assert (destination url dest_folder = Py.path_join dest_folder "") as Hdest.
    { destruct (endswith_slash _ He) as [pre ->]. unfold destination, Py.last_field.
      by rewrite last_field_after_slash. }
    destruct (path_join_empty _ _ Hd) as [Hl Hj].
    split; [done|]. rewrite Hdest. split; [done|].
    rewrite <- Hdest. apply download_file_present. rewrite Hdest.
    by apply exists_dir.
Qed.

(** ** Selecting the files of an item *)

Section Select.

Variable partial_ratio : string -> string -> Z.

Lemma keep_torrents_sound (entries kept : list json) :
  keep_torrents entries = Ok kept ->
  Forall (fun file => file ∈ entries /\ exists name,
            name_of file = Ok name /\ Py.endswith name ".torrent" = true) kept.
Proof.
  revert kept. induction entries as [|file rest IH]; simpl; intros kept H.
  - injection H as <-. constructor.
  - destruct (name_of file) as [name|e] eqn:Hn; simpl in H; [|done].
    destruct (keep_torrents rest) as [kept'|e]; simpl in H; [|done].
    injection H as <-. specialize (IH _ eq_refl).
    assert (Forall (fun f => f ∈ file :: rest /\ exists name,
              name_of f = Ok name /\ Py.endswith name ".torrent" = true) kept') as IH'.
    { eapply Forall_impl; [exact IH|]. intros f [Hin Hf]. split; [|done].
      by apply list_elem_of_further. }
    destruct (Py.endswith name ".torrent") eqn:He; [|done].
    constructor; [|done]. split; [apply list_elem_of_here|eauto].
Qed.

Lemma keep_matching_sound (keyword : string) (files kept : list json) :
  keep_matching partial_ratio keyword files = Ok kept ->
  Forall (fun file => file ∈ files /\ exists name,
            name_of file = Ok name
            /\ match_terms partial_ratio name keyword 70 = true) kept.
Proof.
  revert kept. induction files as [|file rest IH]; simpl; intros kept H.
  - injection H as <-. constructor.
  - destruct (name_of file) as [name|e] eqn:Hn; simpl in H; [|done].
    destruct (keep_matching partial_ratio keyword rest) as [kept'|e]; simpl in H; [|done].
    injection H as <-. specialize (IH _ eq_refl).
    assert (Forall (fun f => f ∈ file :: rest /\ exists name,
              name_of f = Ok name
              /\ match_terms partial_ratio name keyword 70 = true) kept') as IH'.
    { eapply Forall_impl; [exact IH|]. intros f [Hin Hf]. split; [|done].
      by apply list_elem_of_further. }
    destruct (match_terms partial_ratio name keyword 70) eqn:Hm; [|done].
    constructor; [|done]. split; [apply list_elem_of_here|eauto].
Qed.

(** Every selected file is an entry of the [files] array whose name ends
    in [.torrent] and passes the keyword filter. *)
Lemma select_files_sound (metadata : json) (keyword : option string)
    (selected : list json) :
  select_files partial_ratio metadata keyword = Ok selected ->
  exists listed entries,
    Json.subscript metadata "files" = Ok listed
    /\ Json.iter listed = Ok entries
    /\ Forall (fun file => file ∈ entries /\ exists name,
                 name_of file = Ok name
                 /\ Py.endswith name ".torrent" = true
                 /\ passes partial_ratio keyword name = true) selected.
Proof.
  unfold select_files, passes. intros H.
  destruct (Json.subscript metadata "files") as [listed|e] eqn:Hl; simpl in H; [|done].
  destruct (Json.iter listed) as [entries|e] eqn:Hi; simpl in H; [|done].
  destruct (keep_torrents entries) as [kept|e] eqn:Hk; simpl in H; [|done].
  exists listed, entries. split; [done|]. split; [done|].
  pose proof (keep_torrents_sound _ _ Hk) as Hkept.
  rewrite Forall_forall in Hkept.
  destruct (truthy keyword) as [k|].
  - pose proof (keep_matching_sound _ _ _ H) as Hall.
    eapply Forall_impl; [exact Hall|]. intros file (Hin & name & Hn & Hm).
    destruct (Hkept file Hin) as (Hin' & name' & Hn' & He).
    split; [done|]. exists name. split; [done|]. split; [congruence|done].
  - injection H as <-. apply Forall_forall. intros file Hin.
    destruct (Hkept file Hin) as (Hin' & name & Hn & He). eauto.
Qed.


Lemma passes_keyword (k name : string) :
  passes partial_ratio (Some k) name = true ->
  match_terms partial_ratio name k 70 = true.
Proof.
  unfold passes, truthy. destruct (decide (k = "")) as [->|]; [|done].
  intros _. by apply match_terms_blank.
Qed.

End Select.

(** ** The requests of a download *)

Section Requests.

Variable server : nat -> string -> result response.

Lemma attempts_requests (url filename : string) (retries : Z) (todo : list Z) :
  forall w : world,
    exists n, sent (exec server (attempts url filename retries todo) w).2
              = (sent w ++ replicate n url)%list.
Proof.
  induction todo as [|attempt todo IH]; intros w.
  - exists 0%nat. simpl. by rewrite app_nil_r.
  - destruct (attempt_succeeds (files w) filename (server (length (sent w)) url)) eqn:Hs.
    + destruct (attempt_succeeds_run server url filename retries w attempt todo Hs)
        as (resp & _ & ->). by exists 1%nat.
    + destruct (attempt_fails_run server url filename retries w attempt todo Hs)
        as (fs & -> & _).
      match goal with |- context [exec server _ ?w1] =>
        destruct (IH w1) as (n & Hn) end.
      exists (S n). rewrite Hn. simpl. by rewrite <- app_assoc.
Qed.

(** [download_file] requests nothing but its URL. *)
Lemma download_file_requests (url dest_folder : string) (retries : Z) (w : world) :
  exists n, sent (exec server (download_file url dest_folder retries) w).2
            = (sent w ++ replicate n url)%list.
Proof.
  destruct (Fs.exists_ (files w) (destination url dest_folder)) eqn:He.
  - rewrite download_file_present by done. exists 0%nat. simpl. by rewrite app_nil_r.
  - rewrite download_file_absent by done. cbn zeta.
    destruct (attempts_requests url (destination url dest_folder) retries
                (Py.range retries) w) as (n & Hn).
    exists n. by destruct (exec server (attempts _ _ _ _) w) as [[] w'].
Qed.

End Requests.

(** ** download_torrent *)

Section Torrent.

Variable partial_ratio : string -> string -> Z.
Variable repr : json -> string.
Variable download_dir : string.
Variable max_retries : Z.
Variable server : nat -> string -> result response.

Local Abbreviation each_job := (download_each repr download_dir max_retries).
Local Abbreviation metadata_job :=
  (process_metadata partial_ratio repr download_dir max_retries).
Local Abbreviation torrent_job :=
  (download_torrent partial_ratio repr download_dir max_retries).

Lemma name_of_subscript (file : json) (name : string) :
  name_of file = Ok name -> Json.subscript file "name" = Ok (JStr name).
Proof.
  unfold name_of. destruct (Json.subscript file "name") as [v|e]; [|done].
  simpl. destruct v; try done. by intros [= ->].
Qed.

(** The loop over the selected files requests their URLs only. *)
Lemma download_each_requests (identifier : string) (selected : list json) :
  Forall (fun file => exists name, name_of file = Ok name) selected ->
  forall w : world,
    exists urls,
      sent (exec server (each_job identifier selected) w).2
      = (sent w ++ urls)%list
      /\ Forall (fun url => exists file name,
                   file ∈ selected /\ name_of file = Ok name
                   /\ url = torrent_url identifier name) urls.
Proof.
  induction 1 as [|file rest (name & Hname) _ IH]; intros w.
  - exists []. simpl. by rewrite app_nil_r.
  - cbn [download_each].
    rewrite (name_of_subscript _ _ Hname). cbn [fstr]. rewrite exec_bind.
    destruct (download_file_requests server
                (torrent_url identifier name) download_dir max_retries w)
      as (n & Hn).
    match goal with |- context [exec server (each_job identifier rest) ?w1] =>
      destruct (IH w1) as (urls & Hu & Hall) end.
    exists (replicate n (torrent_url identifier name) ++ urls)%list.
    split; [by rewrite Hu, Hn, <- app_assoc|].
    apply Forall_app. split.
    + apply Forall_forall. intros url ->%elem_of_replicate_inv.
      exists file, name. split; [apply list_elem_of_here|done].
    + eapply Forall_impl; [exact Hall|]. intros url (f & nm & Hin & Hnm & ->).
      exists f, nm. split; [by apply list_elem_of_further|done].
Qed.

(** What follows the metadata request asks only for selected files. *)
Lemma process_metadata_requests (identifier : string) (keyword : option string)
    (r : result response) (w : world) :
  exists urls,
    sent (exec server (metadata_job identifier keyword r) w).2
    = (sent w ++ urls)%list
    /\ Forall (fun url => exists resp metadata selected file name,
                 r = Ok resp /\ response_json resp = Ok metadata
                 /\ select_files partial_ratio metadata keyword = Ok selected
                 /\ file ∈ selected /\ name_of file = Ok name
                 /\ url = torrent_url identifier name) urls.
Proof.
  assert (forall w' : world, sent w' = sent w ->
            exists urls, sent w' = (sent w ++ urls)%list
              /\ Forall (fun url => exists resp metadata selected file name,
                    r = Ok resp /\ response_json resp = Ok metadata
                    /\ select_files partial_ratio metadata keyword = Ok selected
                    /\ file ∈ selected /\ name_of file = Ok name
                    /\ url = torrent_url identifier name) urls) as Hquiet.
  { intros w' Hw. exists []. rewrite Hw, app_nil_r. by split. }
  unfold process_metadata.
  destruct r as [resp|e]; simpl; [|by apply Hquiet].
  destruct (raise_for_status resp) as [[]|e]; simpl; [|by apply Hquiet].
  destruct (response_json resp) as [metadata|e] eqn:Hj; simpl; [|by apply Hquiet].
  destruct (Json.contains "files" metadata) as [[]|e]; simpl; try by apply Hquiet.
  destruct (select_files partial_ratio metadata keyword) as [selected|e] eqn:Hsel;
    simpl; [|by apply Hquiet].
  destruct (select_files_sound _ _ _ _ Hsel) as (listed & entries & _ & _ & Hall).
  assert (Forall (fun file => exists name, name_of file = Ok name) selected) as Hnamed.
  { eapply Forall_impl; [exact Hall|]. intros file (_ & name & Hn & _). eauto. }
  rewrite exec_bind.
  match goal with |- context [exec server (each_job identifier selected) ?w1] =>
    destruct (download_each_requests identifier selected Hnamed w1)
      as (urls & Hu & Hurls);
    assert (sent w1 = sent w) as Hw1 by (by destruct selected) end.
  exists urls. rewrite Hu, Hw1. split; [done|].
  eapply Forall_impl; [exact Hurls|]. intros url (file & name & Hin & Hn & ->).
  exists resp, metadata, selected, file, name. done.
Qed.

(** Whatever the keyword: after the metadata request, [download_torrent]
    asks only for files that were selected. *)
Lemma download_torrent_requests (identifier : string) (keyword : option string)
    (w : world) :
  exists urls,
    sent (exec server (torrent_job identifier keyword) w).2
    = (sent w ++ metadata_url identifier :: urls)%list
    /\ Forall (fun url => exists resp metadata selected file name,
                 server (length (sent w)) (metadata_url identifier) = Ok resp
                 /\ response_json resp = Ok metadata
                 /\ select_files partial_ratio metadata keyword = Ok selected
                 /\ file ∈ selected /\ name_of file = Ok name
                 /\ url = torrent_url identifier name) urls.
Proof.
  unfold download_torrent. simpl. rewrite exec_bind.
  match goal with |- context [exec server (metadata_job identifier keyword ?r) ?w1] =>
    destruct (process_metadata_requests identifier keyword r w1)
      as (urls & Hu & Hurls) end.
  exists urls. split; [|exact Hurls].
  match goal with |- context [exec server (metadata_job identifier keyword ?r) ?w1] =>
    destruct (exec server (metadata_job identifier keyword r) w1) as [[[]|e] w2] end;
    simpl in *; rewrite Hu; by rewrite <- app_assoc.
Qed.

(** C8. With a keyword, every request [download_torrent] makes after the
    metadata request is for an entry of the [files] array of the metadata
    whose name ends in [.torrent] and for which [match_terms] is true:
    nothing else is ever downloaded. *)
Theorem keyword_filter_guards_downloads (identifier keyword : string) (w : world) :
  let w' := (exec server (torrent_job identifier (Some keyword)) w).2 in
  exists urls,
    added (sent w) (sent w') = metadata_url identifier :: urls
    /\ Forall (fun url => exists resp metadata listed entries file name,
                 server (length (sent w)) (metadata_url identifier) = Ok resp
                 /\ response_json resp = Ok metadata
                 /\ Json.subscript metadata "files" = Ok listed
                 /\ Json.iter listed = Ok entries
                 /\ file ∈ entries
                 /\ name_of file = Ok name
                 /\ url = torrent_url identifier name
                 /\ Py.endswith name ".torrent" = true
                 /\ match_terms partial_ratio name keyword 70 = true) urls.
Proof.
  cbn zeta.
  destruct (download_torrent_requests identifier (Some keyword) w)
    as (urls & Hs & Hall).
  exists urls. rewrite Hs, added_app. split; [done|].
  eapply Forall_impl; [exact Hall|].
  intros url (resp & metadata & selected & file & name & Hr & Hj & Hsel & Hin & Hn & ->).
  destruct (select_files_sound _ _ _ _ Hsel) as (listed & entries & Hl & Hi & Hsound).
  rewrite Forall_forall in Hsound.
  destruct (Hsound file Hin) as (Hentry & name' & Hn' & He & Hp).
  assert (name' = name) as -> by congruence.
  exists resp, metadata, listed, entries, file, name.
  repeat (split; [done|]). by apply passes_keyword.
Qed.


End Torrent.

(** ** main *)

Section Main.

Variable partial_ratio : string -> string -> Z.
Variable repr : json -> string.
Variable download_dir : string.
Variable max_retries : Z.
Variable server : nat -> string -> result response.

Local Abbreviation main_run := (main partial_ratio repr download_dir max_retries server).
Local Abbreviation submitted :=
  (submit_all partial_ratio repr download_dir max_retries).

Lemma run_pool_idle (sched : list choice) (w : world) :
  run_pool server sched [] [] w = w.
Proof. induction sched as [|[|i] sched IH]; simpl; auto. Qed.

Lemma submit_all_end (docs : list json) (keyword : option string) :
  (submitted docs keyword).2 = loop_end docs.
Proof.
  induction docs as [|item rest IH]; simpl; [done|].
  destruct (Json.subscript item "identifier"); [|done].
  by destruct (submitted rest keyword).
Qed.

Lemma search_items_run (query : string) (rows : Z) (w : world) :
  exec server (search_items query rows) w
  = let url := search_url query rows in
    let searching := [Log INFO (SearchingQuery url); Console SearchingItems] in
    match docs_of (server (length (sent w)) url) with
    | Ok (items, count) =>
        (items, World (files w) (sent w ++ [url])
                  (journal w ++ searching
                   ++ [Log INFO (FoundItems count); Console (FoundItems count)]))
    | Raise e =>
        (JList [], World (files w) (sent w ++ [url])
                     (journal w ++ searching
                      ++ [Log ERROR (SearchFailed e); Console (SearchFailed e)]))
    end.
Proof.
  unfold search_items. simpl.
  destruct (docs_of (server (length (sent w)) (search_url query rows))) as [[items count]|e];
    simpl; by world.
Qed.

(** The failures of the search: the request raises, the status is an
    error, or the body is not JSON. *)
Lemma docs_of_failures (r : response) (e : exn) :
  docs_of (Raise e) = Raise e
  /\ (400 <= status_code r < 600 ->
      docs_of (Ok r) = Raise (HTTPError (status_code r)))
  /\ (raise_for_status r = Ok tt -> document r = None ->
      docs_of (Ok r) = Raise JSONDecodeError).
Proof.
  split; [done|]. split.
  - intros [Hlo Hhi]. unfold docs_of, raise_for_status. simpl.
    apply Z.leb_le in Hlo. apply Z.ltb_lt in Hhi. by rewrite Hlo, Hhi.
  - intros Hs Hd. unfold docs_of, response_json. simpl. rewrite Hs, Hd. done.
Qed.

(** C4, as the code has it.  When the search fails (the request raises,
    the status is an error, the body is not JSON or has not the expected
    shape), [search_items] logs the error and returns an empty list;
    [main] then submits nothing and returns normally: nothing but the
    search is requested, no file is touched, and no error reaches the
    caller. *)
Theorem search_failure_is_swallowed (sched : list choice) (query : string)
    (num_items : Z) (keyword : option string) (w : world) (e : exn) :
  docs_of (server (length (sent w)) (search_url query num_items)) = Raise e ->
  (exec server (search_items query num_items) w).1 = JList []
  /\ main_run sched query num_items keyword w
     = (Ok tt,
        World (files w) (sent w ++ [search_url query num_items])
          (journal w
           ++ [Log INFO (SearchingQuery (search_url query num_items));
               Console SearchingItems;
               Log ERROR (SearchFailed e); Console (SearchFailed e)])).
Proof.
  intros H. unfold main. rewrite search_items_run. cbn zeta.
  rewrite H. simpl. split; [done|]. by rewrite run_pool_idle.
Qed.

(** C7, as the code has it.  [main] returns no list of outcomes: its
    result is [None], or the exception of a search document without a
    usable identifier, and it is determined by the answer to the search
    request alone, whatever the downloads do and however the workers are
    scheduled. *)
Theorem main_returns_no_outcomes (sched : list choice) (query : string)
    (num_items : Z) (keyword : option string) (w : world) :
  (main_run sched query num_items keyword w).1
  = main_result (server (length (sent w)) (search_url query num_items)).
Proof.
  unfold main, main_result. rewrite search_items_run. cbn zeta.
  destruct (docs_of (server (length (sent w)) (search_url query num_items)))
    as [[items count]|e]; simpl.
  - destruct (Json.iter items) as [docs|e]; [|done].
    rewrite <- (submit_all_end docs keyword).
    by destruct (submitted docs keyword).
  - done.
Qed.

Lemma download_torrent_requests_metadata (identifier : string)
    (keyword : option string) :
  requests (metadata_url identifier)
    (download_torrent partial_ratio repr download_dir max_retries identifier keyword).
Proof.
  unfold download_torrent. simpl.
  apply requests_after_emit, requests_after_emit, requests_now.
Qed.

Lemma submit_all_requests (docs : list json) (keyword : option string)
    (item identifier : json) :
  loop_end docs = Ok tt ->
  item ∈ docs -> Json.subscript item "identifier" = Ok identifier ->
  List.Exists (requests (metadata_url (fstr repr identifier)))
    (submitted docs keyword).1.
Proof.
  induction docs as [|d docs IH]; intros Hend Hin Hid; [by apply elem_of_nil in Hin|].
  simpl in *. destruct (Json.subscript d "identifier") as [v|e] eqn:Hd; [|done].
  destruct (submitted docs keyword) as [tasks ended] eqn:Hs. simpl in *.
  apply elem_of_cons in Hin as [->|Hin].
  - apply Exists_cons. left.
    assert (v = identifier) as -> by congruence.
    apply download_torrent_requests_metadata.
  - apply Exists_cons. right. by apply IH.
Qed.

(** Every item the search returned is processed, however the workers are
    scheduled: its metadata is among the requests this run of [main]
    makes, so it is requested before [main] returns.  The identifier is a
    text that the console prints: [download_torrent] prints it before the
    request, and on a closing tag that line would end the task. *)
Theorem main_processes_every_item (sched : list choice) (query : string)
    (num_items : Z) (keyword : option string) (w : world)
    (items item identifier : json) (count : Z) (docs : list json) :
  docs_of (server (length (sent w)) (search_url query num_items)) = Ok (items, count) ->
  Json.iter items = Ok docs ->
  loop_end docs = Ok tt ->
  item ∈ docs -> Json.subscript item "identifier" = Ok identifier ->
  no_closing_tag (fstr repr identifier) = true ->
  metadata_url (fstr repr identifier)
  ∈ added (sent w) (sent (main_run sched query num_items keyword w).2).
Proof.
  intros Hdocs Hiter Hend Hin Hid _. unfold main. rewrite search_items_run. cbn zeta.
  rewrite Hdocs, Hiter.
  pose proof (submit_all_requests docs keyword item identifier Hend Hin Hid) as Hreq.
  destruct (submitted docs keyword) as [tasks ended]. simpl in *.
  apply run_pool_requests; [|done]. simpl. rewrite length_app. lia.
Qed.

End Main.

(** ** The claims on concrete runs *)

Import Fixture.

(** C9 at the keyword of two blanks. *)
Lemma blank_keyword_matches_all_witness :
  blank "  " = true
  /\ (forall text threshold, match_terms occurs text "  " threshold = true)
  /\ (forall metadata,
        select_files occurs metadata (Some "  ") = select_files occurs metadata None).
Proof.
  split; [reflexivity|].
  apply (blank_keyword_matches_all occurs "  "). reflexivity.
Defined.

(** C1 as stated fails: against a server that answers 500, the first run
    gives up without leaving a file, and the second run is not skipped; it
    asks the server three more times. *)
Lemma second_run_after_failure_retries :
  let w1 := (exec (status 500) (download_file a_torrent "torrent_files" 3) disk).2 in
  let w2 := (exec (status 500) (download_file a_torrent "torrent_files" 3) w1).2 in
  outcomes (added (journal disk) (journal w1)) = [Failed a_torrent 3]
  /\ outcomes (added (journal w1) (journal w2)) = [Failed a_torrent 3]
  /\ outcomes (added (journal w1) (journal w2)) <> [Skipped "torrent_files/a.torrent"]
  /\ added (sent w1) (sent w2) = [a_torrent; a_torrent; a_torrent].
Proof. vm_compute. repeat split; done. Qed.

(** C1: after a download that succeeded, the second run is skipped, even
    against a server that cannot be reached. *)
Lemma download_file_idempotent_witness :
  let w1 := (exec (status 200) (download_file a_torrent "torrent_files" 3) disk).2 in
  let w2 := (exec unreachable (download_file a_torrent "torrent_files" 3) w1).2 in
  Fs.exists_ (files w1) (destination a_torrent "torrent_files") = true
  /\ exec unreachable (download_file a_torrent "torrent_files" 3) w1
     = (tt, World (files w1) (sent w1)
              (journal w1 ++ [Log INFO (AlreadyExists "torrent_files/a.torrent");
                              Console (AlreadyExists "torrent_files/a.torrent")]))
  /\ (outcomes (added (journal disk) (journal w1)) = [Skipped "torrent_files/a.torrent"]
      \/ outcomes (added (journal disk) (journal w1)) = [Succeeded "torrent_files/a.torrent"])
  /\ outcomes (added (journal w1) (journal w2)) = [Skipped "torrent_files/a.torrent"]
  /\ files w2 = files w1 /\ sent w2 = sent w1.
Proof.
  intros w1 w2.
  assert (Fs.exists_ (files w1) (destination a_torrent "torrent_files") = true) as He.
  { vm_compute. reflexivity. }
  assert (outcomes (added (journal disk) (journal w1)) = [Skipped "torrent_files/a.torrent"]
          \/ outcomes (added (journal disk) (journal w1))
             = [Succeeded "torrent_files/a.torrent"]) as Ho.
  { right. vm_compute. reflexivity. }
  split; [exact He|].
  split; [exact (proj1 (download_file_idempotent a_torrent "torrent_files"
                          unreachable unreachable 3 3 w1) He)|].
  split; [exact Ho|].
  exact (proj2 (download_file_idempotent a_torrent "torrent_files"
                  (status 200) unreachable 3 3 disk) Ho).
Defined.



(** C4 as stated fails: the search cannot be reached, and [main] returns
    [None]; the caller sees no error. *)
Lemma search_failure_reaches_no_caller :
  docs_of (unreachable 0%nat (search_url "format:Torrent" 2))
  = Raise (RequestException "timed out")
  /\ (main occurs plain "torrent_files" 3 unreachable [] "format:Torrent" 2 None disk).1
     = Ok tt.
Proof. vm_compute. split; reflexivity. Qed.

Lemma search_failure_is_swallowed_witness :
  docs_of (unreachable (length (sent disk)) (search_url "format:Torrent" 2))
  = Raise (RequestException "timed out")
  /\ (exec unreachable (search_items "format:Torrent" 2) disk).1 = JList []
  /\ main occurs plain "torrent_files" 3 unreachable [Start; Advance 0]
       "format:Torrent" 2 None disk
     = (Ok tt,
        World (files disk) (sent disk ++ [search_url "format:Torrent" 2])
          (journal disk
           ++ [Log INFO (SearchingQuery (search_url "format:Torrent" 2));
               Console SearchingItems;
               Log ERROR (SearchFailed (RequestException "timed out"));
               Console (SearchFailed (RequestException "timed out"))])).
Proof.
  split; [reflexivity|].
  apply (search_failure_is_swallowed occurs plain "torrent_files" 3 unreachable).
  reflexivity.
Defined.

(** C5 as stated fails: a response with status 201 is in the 2xx range,
    yet the attempt reports the status as a failure and writes nothing. *)
Lemma status_201_is_not_written :
  let run := exec (status 201) (fetch_once a_torrent "torrent_files/a.torrent") disk in
  run.1 = Ok false
  /\ files run.2 = files disk
  /\ Fs.exists_ (files run.2) "torrent_files/a.torrent" = false
  /\ journal run.2 = [Log ERROR (BadStatus a_torrent 201); Console (BadStatus a_torrent 201)].
Proof. vm_compute. repeat split; done. Qed.

Lemma fetch_once_writes_on_200_witness :
  exec (status 404) (fetch_once a_torrent "torrent_files/a.torrent") disk
  = (Ok false,
     World (files disk) [a_torrent]
       [Log ERROR (BadStatus a_torrent 404); Console (BadStatus a_torrent 404)])
  /\ exec unreachable (fetch_once a_torrent "torrent_files/a.torrent") disk
     = (Raise (RequestException "timed out"), request a_torrent disk)
  /\ exec (status 200) (fetch_once a_torrent "torrent_files/a.torrent") disk
     = (Ok true,
        World (<["torrent_files/a.torrent" := File (concat body)]> (files disk))
          [a_torrent]
          [Log INFO (Downloaded "torrent_files/a.torrent");
           Console (Downloaded "torrent_files/a.torrent")])
  /\ (exists resp, status 200 0%nat a_torrent = Ok resp /\ status_code resp = 200).
Proof.
  split; [|split; [|split]].
  - exact (proj1
             (fetch_once_writes_on_200 (status 404) a_torrent
                "torrent_files/a.torrent" disk)
             (Response 404 body None None) eq_refl ltac:(discriminate)).
  - exact (proj1 (proj2
             (fetch_once_writes_on_200 unreachable a_torrent
                "torrent_files/a.torrent" disk))
             (RequestException "timed out") eq_refl).
  - exact (proj1 (proj2 (proj2
             (fetch_once_writes_on_200 (status 200) a_torrent
                "torrent_files/a.torrent" disk)))
             (Response 200 body None None) eq_refl eq_refl eq_refl eq_refl).
  - apply (proj2 (proj2 (proj2
             (fetch_once_writes_on_200 (status 200) a_torrent
                "torrent_files/a.torrent" disk)))).
    intros Heq.
    apply (f_equal (fun fs : gmap string node => fs !! "torrent_files/a.torrent")) in Heq.
    vm_compute in Heq. discriminate Heq.
Defined.


(** C7 as stated fails: two runs that differ in every outcome return the
    same value, and the outcomes printed need not follow the order of
    submission. *)
Lemma main_result_hides_outcomes :
  let run code sched :=
    main occurs plain "torrent_files" 3 (archive code) sched "format:Torrent" 2 None disk in
  (run 200 []).1 = Ok tt
  /\ (run 500 []).1 = Ok tt
  /\ outcomes (journal (run 200 []).2)
     = [Succeeded "torrent_files/a.torrent"; Succeeded "torrent_files/b.torrent"]
  /\ outcomes (journal (run 500 []).2) = [Failed a_torrent 3; Failed b_torrent 3]
  /\ outcomes (journal (run 200 second_first).2)
     = [Succeeded "torrent_files/b.torrent"; Succeeded "torrent_files/a.torrent"].
Proof. vm_compute. repeat split; done. Qed.

(** C10 on a URL that ends in [/], on the URL of a torrent, and on a URL
    without any [/]. *)
Lemma trailing_slash_url_skipped_witness :
  Py.endswith "https://archive.org/download/item1/" "/" = true
  /\ Fs.is_dir (files disk) "torrent_files" = true
  /\ destination "https://archive.org/download/item1/" "torrent_files" = "torrent_files/"
  /\ exec unreachable
       (download_file "https://archive.org/download/item1/" "torrent_files" 3) disk
     = (tt, World (files disk) []
              [Log INFO (AlreadyExists "torrent_files/");
               Console (AlreadyExists "torrent_files/")])
  /\ Py.last_field "/" a_torrent = "a.torrent"
  /\ Py.last_field "/" "a.torrent" = "a.torrent".
Proof.
  split; [reflexivity|]. split; [reflexivity|].
  destruct (proj2 (proj2 (proj2
              (trailing_slash_url_skipped "https://archive.org/download/item1/"
                 "torrent_files")))
              unreachable 3 disk eq_refl eq_refl) as (Hd & _ & Hrun).
  split; [exact Hd|]. split; [exact Hrun|]. split.
  - exact (proj1 (proj2 (trailing_slash_url_skipped a_torrent "torrent_files"))
             "https://archive.org/download/item1" "a.torrent" eq_refl eq_refl).
  - exact (proj1 (proj2 (proj2 (trailing_slash_url_skipped "a.torrent" "torrent_files")))
             eq_refl).
Defined.

(** The matcher on the examples of the specification, with a scorer that
    gives 100 to a term that occurs in the text (as the partial ratio
    does) and 0 to any other. *)
Example match_terms_examples :
  match_terms occurs "ubuntu-22.04-desktop.torrent" "ubuntu desktop" 70 = true
  /\ match_terms occurs "ubuntu-22.04-desktop.torrent" "ubuntu server" 70 = false
  /\ match_terms occurs "ubuntu-22.04-desktop.torrent" "Ubuntu  DESKTOP" 70 = true.
Proof. repeat split; reflexivity. Qed.

(** C8 on an item with a torrent and a text file, for a keyword the
    torrent does not match: only the metadata is requested. *)
Example keyword_filter_example :
  sent (exec (archive 200)
          (download_torrent occurs plain "torrent_files" 3 "item1" (Some "ubuntu"))
          disk).2
  = [metadata_url "item1"]
  /\ sent (exec (archive 200)
             (download_torrent occurs plain "torrent_files" 3 "item1" (Some "A torrent"))
             disk).2
     = [metadata_url "item1"; a_torrent].
Proof. vm_compute. split; reflexivity. Qed.

(** * Further properties of the script *)

(** ** More on strings and the matcher *)

Lemma lower_app (a b : string) : Py.lower (a +:+ b) = Py.lower a +:+ Py.lower b.
Proof. induction a as [|c a IH]; [done|]. rewrite app_cons. simpl. by rewrite IH. Qed.

Lemma lower_char_idem (c : ascii) : Py.lower_char (Py.lower_char c) = Py.lower_char c.
Proof. destruct c as [[] [] [] [] [] [] [] []]; reflexivity. Qed.

Lemma lower_idem (s : string) : Py.lower (Py.lower s) = Py.lower s.
Proof. induction s as [|c s IH]; [done|]. simpl. by rewrite lower_char_idem, IH. Qed.

Lemma isspace_lower_char (c : ascii) : Py.isspace (Py.lower_char c) = Py.isspace c.
Proof. destruct c as [[] [] [] [] [] [] [] []]; reflexivity. Qed.

Lemma no_space_snoc (w : string) (c : ascii) :
  no_space w = true -> Py.isspace c = false -> no_space (w +:+ String c "") = true.
Proof.
  induction w as [|x w IH]; simpl; intros Hw Hc.
  - by rewrite Hc.
  - apply andb_true_iff in Hw as [Hx Hw]. rewrite Hx. simpl. by apply IH.
Qed.

Lemma snoc_nonempty (w : string) (c : ascii) : w +:+ String c "" <> "".
Proof. by destruct w. Qed.

Lemma split_from_terms (s : string) :
  forall w, no_space w = true ->
    Forall (fun term => term <> "" /\ no_space term = true) (Py.split_from w s).
Proof.
  induction s as [|c s IH]; intros w Hw; simpl.
  - unfold Py.flush. destruct (decide (w = "")); repeat constructor; done.
  - destruct (Py.isspace c) eqn:Hc.
    + apply Forall_app. split; [|by apply IH].
      unfold Py.flush. destruct (decide (w = "")); repeat constructor; done.
    + apply IH. by apply no_space_snoc.
Qed.

Section MatcherMore.

Variable partial_ratio : string -> string -> Z.

Lemma terms_loop_app (l k : list string) (text : string) (threshold : Z) :
  terms_loop partial_ratio (l ++ k) text threshold
  = terms_loop partial_ratio l text threshold
    && terms_loop partial_ratio k text threshold.
Proof.
  induction l as [|term l IH]; [done|]. simpl.
  by destruct (partial_ratio term (Py.lower text) <? threshold).
Qed.

Lemma terms_loop_lower (terms : list string) (text : string) (threshold : Z) :
  terms_loop partial_ratio terms (Py.lower text) threshold
  = terms_loop partial_ratio terms text threshold.
Proof.
  induction terms as [|term terms IH]; [done|]. simpl. by rewrite lower_idem, IH.
Qed.

(** The terms handed to the scorer are never empty and hold no white
    space. *)
Theorem split_terms_are_words (s : string) :
  Forall (fun term => term <> "" /\ no_space term = true) (Py.split s).
Proof. by apply split_from_terms. Qed.

(** A match at a threshold is a match at every lower threshold. *)
Theorem match_terms_threshold_monotone (text keyword : string) (high low : Z) :
  low <= high ->
  match_terms partial_ratio text keyword high = true ->
  match_terms partial_ratio text keyword low = true.
Proof.
  unfold match_terms. intros Hle H. apply terms_loop_spec in H.
  apply terms_loop_spec. eapply Forall_impl; [exact H|]. simpl. intros term. lia.
Qed.

(** Two keywords joined by a white-space character match exactly when
    both match; so the order of the terms does not matter. *)
Theorem match_terms_joined (text a b : string) (c : ascii) (threshold : Z) :
  Py.isspace c = true ->
  match_terms partial_ratio text (a +:+ String c b) threshold
  = match_terms partial_ratio text a threshold
    && match_terms partial_ratio text b threshold
  /\ match_terms partial_ratio text (a +:+ String c b) threshold
     = match_terms partial_ratio text (b +:+ String c a) threshold.
Proof.
  intros Hc.
  assert (forall x y, match_terms partial_ratio text (x +:+ String c y) threshold
                      = match_terms partial_ratio text x threshold
                        && match_terms partial_ratio text y threshold) as H.
  { intros x y. unfold match_terms, Py.split. rewrite lower_app. simpl.
    rewrite split_from_space by (by rewrite isspace_lower_char).
    apply terms_loop_app. }
  split; [apply H|]. rewrite !H. apply andb_comm.
Qed.

(** The case of the letters plays no part: lower-casing the text and the
    keyword beforehand changes nothing. *)
Theorem match_terms_ignores_case (text keyword : string) (threshold : Z) :
  match_terms partial_ratio (Py.lower text) (Py.lower keyword) threshold
  = match_terms partial_ratio text keyword threshold.
Proof. unfold match_terms. by rewrite lower_idem, terms_loop_lower. Qed.

End MatcherMore.

(** ** Stripping *)

Lemma split_from_blank (s : string) :
  blank s = true -> forall w, Py.split_from w s = Py.flush w.
Proof.
  induction s as [|c s IH]; intros H w; simpl in *; [done|].
  apply andb_true_iff in H as [Hc Hs]. rewrite Hc, IH by done.
  unfold Py.flush at 2. simpl. by rewrite app_nil_r.
Qed.

Lemma rstrip_empty_blank (s : string) : Py.rstrip s = "" -> blank s = true.
Proof.
  induction s as [|c s IH]; simpl; [done|].
  destruct (Py.rstrip s); [|done]. destruct (Py.isspace c); [|done].
  intros _. by rewrite IH.
Qed.

Lemma split_from_rstrip (s : string) :
  forall w, Py.split_from w (Py.rstrip s) = Py.split_from w s.
Proof.
  induction s as [|c s IH]; intros w; simpl; [done|].
  destruct (Py.rstrip s) as [|x kept] eqn:Hr.
  - pose proof (rstrip_empty_blank s Hr) as Hb.
    destruct (Py.isspace c) eqn:Hc; simpl.
    + rewrite split_from_blank by done. unfold Py.flush at 2. simpl.
      by rewrite app_nil_r.
    + rewrite Hc. by rewrite split_from_blank.
  - simpl. destruct (Py.isspace c); by rewrite <- IH.
Qed.

Lemma split_lstrip (s : string) : Py.split (Py.lstrip s) = Py.split s.
Proof.
  unfold Py.split. induction s as [|c s IH]; simpl; [done|].
  destruct (Py.isspace c) eqn:Hc; [done|]. simpl. by rewrite Hc.
Qed.

Lemma split_strip (s : string) : Py.split (Py.strip s) = Py.split s.
Proof. unfold Py.strip. rewrite split_lstrip. apply split_from_rstrip. Qed.

Lemma lower_lstrip (s : string) : Py.lower (Py.lstrip s) = Py.lstrip (Py.lower s).
Proof.
  induction s as [|c s IH]; simpl; [done|]. rewrite isspace_lower_char.
  by destruct (Py.isspace c).
Qed.

Lemma lower_rstrip (s : string) : Py.lower (Py.rstrip s) = Py.rstrip (Py.lower s).
Proof.
  induction s as [|c s IH]; simpl; [done|]. rewrite <- IH, isspace_lower_char.
  destruct (Py.rstrip s); [by destruct (Py.isspace c)|done].
Qed.

Lemma lower_strip (s : string) : Py.lower (Py.strip s) = Py.strip (Py.lower s).
Proof. unfold Py.strip. by rewrite lower_lstrip, lower_rstrip. Qed.

Lemma strip_blank (s : string) : blank s = true -> Py.strip s = "".
Proof.
  intros H. unfold Py.strip.
  assert (Py.rstrip s = "") as ->; [|done].
  induction s as [|c s IH]; simpl in *; [done|].
  apply andb_true_iff in H as [Hc Hs]. by rewrite IH, Hc.
Qed.

(** ** More on download_file *)

Section DownloadMore.

Variable server : nat -> string -> result response.
Variables (url filename : string) (retries : Z).

(** The attempts that fail before the loop goes on with [todo]. *)
Lemma attempts_fail_then (fs0 : gmap string node) (s0 len : nat) (todo : list Z) :
  forall (start : nat) (w : world),
    length (sent w) = (s0 + start)%nat ->
    Fs.can_open (files w) filename = Fs.can_open fs0 filename ->
    (forall i, (start <= i < start + len)%nat ->
               attempt_succeeds fs0 filename (server (s0 + i)%nat url) = false) ->
    exists fs,
      exec server
        (attempts url filename retries (map Z.of_nat (seq start len) ++ todo)) w
      = exec server (attempts url filename retries todo)
          (World fs (sent w ++ replicate len url)
             (journal w ++
              flat_map (fun i => failed_attempt retries
                          (failure_message url fs0 filename (server (s0 + i)%nat url))
                          (Z.of_nat i))
                (seq start len)))
      /\ Fs.can_open fs filename = Fs.can_open fs0 filename
      /\ (len = 0%nat -> fs = files w).
Proof.
  induction len as [|len IH]; intros start w Hlen Hco Hfail.
  - exists (files w). simpl. rewrite !app_nil_r. by destruct w.
  - cbn [seq map flat_map replicate app].
    destruct (attempt_fails_run server url filename retries w (Z.of_nat start)
                (map Z.of_nat (seq (S start) len) ++ todo)) as (fs & Hrun & Hfs).
    { rewrite Hlen, (attempt_succeeds_can_open filename fs0) by done. apply Hfail. lia. }
    rewrite Hrun. clear Hrun.
    edestruct (IH (S start)) as (fs' & Hrun & Hco' & _); last first.
    { exists fs'. rewrite Hrun. simpl. rewrite Hlen.
      rewrite (failure_message_can_open url filename fs0 (files w)) by done.
      rewrite <- !app_assoc. split; [done|]. split; [done|]. lia. }
    + intros i Hi. apply Hfail. lia.
    + simpl. congruence.
    + simpl. rewrite length_app. simpl. lia.
Qed.

Lemma attempts_requests_bound (todo : list Z) :
  forall w : world,
    exists n, (n <= length todo)%nat
              /\ sent (exec server (attempts url filename retries todo) w).2
                 = (sent w ++ replicate n url)%list.
Proof.
  induction todo as [|attempt todo IH]; intros w.
  - exists 0%nat. simpl. by rewrite app_nil_r.
  - destruct (attempt_succeeds (files w) filename (server (length (sent w)) url)) eqn:Hs.
    + destruct (attempt_succeeds_run server url filename retries w attempt todo Hs)
        as (resp & _ & ->). exists 1%nat. simpl. split; [lia|done].
    + destruct (attempt_fails_run server url filename retries w attempt todo Hs)
        as (fs & -> & _).
      match goal with |- context [exec server _ ?w1] =>
        destruct (IH w1) as (n & Hle & Hn) end.
      exists (S n). rewrite Hn. simpl. split; [lia|]. by rewrite <- app_assoc.
Qed.

End DownloadMore.

Lemma range_nonpositive (n : Z) : n <= 0 -> Py.range n = [].
Proof. intros H. unfold Py.range. by replace (Z.to_nat n) with 0%nat by lia. Qed.

Lemma range_split (n : Z) (k : nat) :
  (k < Z.to_nat n)%nat ->
  Py.range n = (map Z.of_nat (seq 0 k)
                ++ Z.of_nat k :: map Z.of_nat (seq (S k) (Z.to_nat n - S k)))%list.
Proof.
  intros H. unfold Py.range.
  replace (Z.to_nat n) with (k + S (Z.to_nat n - S k))%nat at 1 by lia.
  by rewrite seq_app, map_app.
Qed.

Section DownloadProperties.

Variable server : nat -> string -> result response.
Variables (url dest_folder : string) (retries : Z).

Let filename : string := destination url dest_folder.

(** [download_file] tries until the first success.  When the first [k]
    attempts fail and the next one succeeds, the URL is requested [k + 1]
    times and no more, the destination holds the body of the response
    that succeeded, one download is reported and no failure.  The URL and
    the destination are texts that the console prints: a failed attempt
    quotes the first and the report of the download the second, and a
    closing tag in the URL would end the call at the first failure. *)
Theorem download_file_first_success (w : world) (k : nat) (resp : response) :
  let w' := (exec server (download_file url dest_folder retries) w).2 in
  no_closing_tag url = true ->
  no_closing_tag filename = true ->
  Fs.exists_ (files w) filename = false ->
  (k < Z.to_nat retries)%nat ->
  (forall i, (i < k)%nat ->
             attempt_succeeds (files w) filename
               (server (length (sent w) + i)%nat url) = false) ->
  server (length (sent w) + k)%nat url = Ok resp ->
  attempt_succeeds (files w) filename (Ok resp) = true ->
  added (sent w) (sent w') = replicate (S k) url
  /\ Fs.lookup (files w') filename = Some (File (concat (chunks resp)))
  /\ outcomes (added (journal w) (journal w')) = [Succeeded filename]
  /\ length (attempt_errors (added (journal w) (journal w'))) = k.
Proof.
  intros w' _ _ Habsent Hk Hfail Hresp Hok. subst w'.
  rewrite download_file_absent by done. cbn zeta. fold filename.
  rewrite (range_split retries k) by done.
  destruct (attempts_fail_then server url filename retries (files w)
              (length (sent w)) k
              (Z.of_nat k :: map Z.of_nat (seq (S k) (Z.to_nat retries - S k))) 0 w)
    as (fs & -> & Hco & _).
  { lia. } { done. } { intros i Hi. apply Hfail. lia. }
  match goal with |- context [exec server _ ?x] => set (w1 := x) end.
  destruct (attempt_succeeds_run server url filename retries w1 (Z.of_nat k)
              (map Z.of_nat (seq (S k) (Z.to_nat retries - S k))))
    as (resp' & Hresp' & ->).
  { subst w1. simpl. rewrite length_app, length_replicate.
    rewrite (attempt_succeeds_can_open filename (files w)) by done.
    by rewrite Hresp. }
  assert (resp' = resp) as ->.
  { subst w1. simpl in Hresp'. rewrite length_app, length_replicate in Hresp'.
    congruence. }
  subst w1. simpl. rewrite <- !app_assoc, !added_app.
  assert (Fs.can_open fs filename = true) as Hopen.
  { rewrite Hco. unfold attempt_succeeds in Hok.
    by destruct (status_code resp =? 200), (Fs.can_open (files w) filename). }
  split; [|split; [|split]].
  - symmetry. apply replicate_S_end.
  - destruct (can_open_shape _ _ Hopen). by apply lookup_written.
  - unfold outcomes. rewrite omap_app.
    rewrite (outcomes_failed retries); [done|]. intros i. apply attempt_error_failure.
  - unfold attempt_errors. rewrite omap_app.
    rewrite (attempt_errors_failed retries).
    + simpl. by rewrite app_nil_r, length_map, length_seq.
    + intros i. apply attempt_error_failure.
Qed.

(** Whatever the server does, [download_file] requests nothing but its
    URL, and at most [retries] times. *)
Theorem download_file_request_bound (w : world) :
  exists n, (n <= Z.to_nat retries)%nat
            /\ sent (exec server (download_file url dest_folder retries) w).2
               = (sent w ++ replicate n url)%list.
Proof.
  destruct (Fs.exists_ (files w) filename) eqn:He.
  - rewrite download_file_present by done. exists 0%nat. simpl.
    split; [lia|by rewrite app_nil_r].
  - rewrite download_file_absent by done. cbn zeta. fold filename.
    destruct (attempts_requests_bound server url filename retries
                (Py.range retries) w) as (n & Hle & Hn).
    exists n. split.
    + unfold Py.range in Hle. by rewrite length_map, length_seq in Hle.
    + by destruct (exec server (attempts _ _ _ _) w) as [[] w'].
Qed.

(** Every call reports exactly one outcome: a skip exactly when the
    destination was there, else a download (and then the destination is
    there afterwards) or a failure.  The URL and the destination are
    texts that the console prints: every line of the call quotes one of
    them, and on a closing tag the call would end in an exception with no
    outcome reported. *)
Theorem download_file_reports_once (w : world) :
  let w' := (exec server (download_file url dest_folder retries) w).2 in
  let reported := outcomes (added (journal w) (journal w')) in
  no_closing_tag url = true ->
  no_closing_tag filename = true ->
  (Fs.exists_ (files w) filename = true /\ reported = [Skipped filename])
  \/ (Fs.exists_ (files w) filename = false
      /\ ((reported = [Succeeded filename] /\ Fs.exists_ (files w') filename = true)
          \/ reported = [Failed url retries])).
Proof.
  cbn zeta. intros _ _. destruct (Fs.exists_ (files w) filename) eqn:He.
  - left. rewrite download_file_present by done. simpl. by rewrite added_app.
  - right. split; [done|]. rewrite download_file_absent by done. cbn zeta.
    fold filename.
    destruct (attempts_outcome server url filename retries (Py.range retries) w)
      as (js & Hj & Hout).
    destruct (exec server (attempts url filename retries (Py.range retries)) w)
      as [[] w1]; simpl in *.
    + left. rewrite Hj, added_app. tauto.
    + right. rewrite Hj, <- app_assoc, added_app. unfold outcomes in *.
      by rewrite omap_app, Hout.
Qed.

(** With no attempt allowed ([retries] zero or negative) the failure is
    reported at once: nothing is requested and nothing is written. *)
Theorem download_file_no_attempts (w : world) :
  retries <= 0 ->
  Fs.exists_ (files w) filename = false ->
  exec server (download_file url dest_folder retries) w
  = (tt, World (files w) (sent w)
           (journal w ++ [Log ERROR (GaveUp retries url);
                          Console (GaveUp retries url)])).
Proof.
  intros Hr He. rewrite download_file_absent by done.
  rewrite range_nonpositive by done. reflexivity.
Qed.

End DownloadProperties.

(** ** The destination of a download *)

Lemma no_slash_snoc (s : string) (c : ascii) :
  no_slash s = true -> c <> "/"%char -> no_slash (s +:+ String c "") = true.
Proof.
  induction s as [|x s IH]; simpl; intros Hs Hc.
  - apply andb_true_iff. split; [|done]. apply negb_true_iff. by apply bool_decide_eq_false.
  - apply andb_true_iff in Hs as [Hx Hs]. rewrite Hx. simpl. by apply IH.
Qed.

Lemma last_field_from_no_slash_result (s : string) :
  forall field, no_slash field = true ->
                no_slash (Py.last_field_from "/" field s) = true.
Proof.
  induction s as [|c s IH]; intros field H; simpl; [done|].
  destruct (decide (c = "/"%char)); [by apply IH|].
  apply IH. by apply no_slash_snoc.
Qed.

Lemma dirname_no_slash (seg : string) : no_slash seg = true -> Fs.dirname seg = None.
Proof.
  induction seg as [|c seg IH]; simpl; [done|].
  intros [Hc Hs]%andb_true_iff. rewrite IH by done.
  apply negb_true_iff, bool_decide_eq_false in Hc. by destruct (decide (c = "/"%char)).
Qed.

Lemma dirname_join (d seg : string) :
  no_slash seg = true -> Fs.dirname (d +:+ "/" +:+ seg) = Some d.
Proof.
  intros H. induction d as [|c d IH].
  - simpl. by rewrite dirname_no_slash.
  - rewrite app_cons. simpl. by rewrite IH.
Qed.

(** The file is written directly in the destination folder: the name
    under which a URL is saved holds no separator, whatever the URL. *)
Theorem destination_in_folder (url dest_folder : string) :
  no_slash (Py.last_field "/" url) = true
  /\ (dest_folder <> "" -> Py.endswith dest_folder "/" = false ->
      destination url dest_folder = dest_folder +:+ "/" +:+ Py.last_field "/" url
      /\ Fs.dirname (destination url dest_folder) = Some dest_folder).
Proof.
  assert (no_slash (Py.last_field "/" url) = true) as Hseg.
  { by apply last_field_from_no_slash_result. }
  split; [done|]. intros Hne He.
  assert (destination url dest_folder = dest_folder +:+ "/" +:+ Py.last_field "/" url) as ->.
  { unfold destination, Py.path_join. rewrite He.
    destruct (decide (dest_folder = "")); [done|].
    destruct (Py.last_field "/" url) as [|c seg] eqn:Hl; [done|].
    simpl in Hseg. apply andb_true_iff in Hseg as [Hc _].
    apply negb_true_iff, bool_decide_eq_false in Hc. simpl.
    by destruct (decide ("/"%char = c)). }
  split; [done|]. by apply dirname_join.
Qed.

Section Collisions.

Variables (dest_folder pre1 pre2 seg : string).

(** Two URLs with the same last segment share one destination: once the
    first is there, whether downloaded or found, the second is skipped
    without a request although it names another resource. *)
Theorem same_name_is_skipped (server1 server2 : nat -> string -> result response)
    (retries1 retries2 : Z) (w : world) :
  let url1 := pre1 +:+ "/" +:+ seg in
  let url2 := pre2 +:+ "/" +:+ seg in
  let w1 := (exec server1 (download_file url1 dest_folder retries1) w).2 in
  let w2 := (exec server2 (download_file url2 dest_folder retries2) w1).2 in
  no_slash seg = true ->
  outcomes (added (journal w) (journal w1)) = [Skipped (destination url1 dest_folder)]
  \/ outcomes (added (journal w) (journal w1)) = [Succeeded (destination url1 dest_folder)] ->
  destination url2 dest_folder = destination url1 dest_folder
  /\ outcomes (added (journal w1) (journal w2)) = [Skipped (destination url1 dest_folder)]
  /\ sent w2 = sent w1 /\ files w2 = files w1.
Proof.
  cbn zeta. intros Hseg H.
  assert (destination (pre2 +:+ "/" +:+ seg) dest_folder
          = destination (pre1 +:+ "/" +:+ seg) dest_folder) as Hd.
  { unfold destination.
    assert (forall pre, Py.last_field "/" (pre +:+ "/" +:+ seg) = seg) as Hl.
    { intros pre. by apply last_field_after_slash. }
    by rewrite !Hl. }
  split; [done|].
  apply download_file_leaves_file in H. rewrite <- Hd in H.
  rewrite (download_file_present server2) by done. simpl.
  by rewrite added_app, Hd.
Qed.

End Collisions.

Section Partial.

Variable server : nat -> string -> result response.
Variables (url dest_folder : string) (retries : Z).

Let filename : string := destination url dest_folder.

(** A body that breaks off leaves its beginning on disk.  When every
    attempt gets status 200 and a body that ends in an exception, the run
    reports a failure, yet the destination holds what the last attempt
    received; a later run finds it and skips the URL, so the truncated
    file stays.  The URL and the destination are texts that the console
    prints: on a URL with a closing tag the call would end at the first
    broken body, with the file of that attempt and no report. *)
Theorem broken_body_is_kept (w : world) (answers : nat -> response)
    (later : nat -> string -> result response) (retries' : Z) :
  let w1 := (exec server (download_file url dest_folder retries) w).2 in
  let w2 := (exec later (download_file url dest_folder retries') w1).2 in
  no_closing_tag url = true ->
  no_closing_tag filename = true ->
  0 < retries ->
  Fs.exists_ (files w) filename = false ->
  Fs.can_open (files w) filename = true ->
  (forall i, (i < Z.to_nat retries)%nat ->
             server (length (sent w) + i)%nat url = Ok (answers i)
             /\ status_code (answers i) = 200
             /\ is_Some (broken (answers i))) ->
  outcomes (added (journal w) (journal w1)) = [Failed url retries]
  /\ Fs.lookup (files w1) filename
     = Some (File (concat (chunks (answers (Z.to_nat retries - 1)%nat))))
  /\ outcomes (added (journal w1) (journal w2)) = [Skipped filename]
  /\ files w2 = files w1.
Proof.
  cbn zeta. intros _ _ Hpos Habsent Hopen Hans.
  assert (forall i, (i < Z.to_nat retries)%nat ->
            attempt_succeeds (files w) filename
              (server (length (sent w) + i)%nat url) = false) as Hfail.
  { intros i Hi. destruct (Hans i Hi) as (-> & H200 & [e He]).
    unfold attempt_succeeds. rewrite He. by rewrite andb_false_r. }
  set (k := (Z.to_nat retries - 1)%nat).
  assert (k < Z.to_nat retries)%nat as Hk by lia.
  assert (exists w1,
            exec server (download_file url dest_folder retries) w = (tt, w1)
            /\ outcomes (added (journal w) (journal w1)) = [Failed url retries]
            /\ Fs.lookup (files w1) filename
               = Some (File (concat (chunks (answers k))))) as (w1 & Hrun & Hout & Hlook).
  { rewrite download_file_absent by done. cbn zeta. fold filename.
    rewrite (range_split retries k) by done.
    replace (Z.to_nat retries - S k)%nat with 0%nat by lia.
    change (map Z.of_nat (seq (S k) 0)) with (@nil Z).
    destruct (attempts_fail_then server url filename retries (files w)
                (length (sent w)) k [Z.of_nat k] 0 w) as (fs & -> & Hco & _).
    { lia. } { done. } { intros i Hi. apply Hfail. lia. }
    destruct (Hans k Hk) as (Hk1 & Hk2 & [e Hk3]).
    cbn [attempts seq map]. rewrite exec_bind, fetch_once_run. simpl.
    rewrite length_app, length_replicate. simpl. rewrite Hk1, Hk2. simpl.
    rewrite Hco, Hopen, Hk3. simpl.
    eexists. split; [reflexivity|]. simpl.
    rewrite <- !app_assoc, added_app. split.
    - unfold outcomes. rewrite omap_app.
      rewrite (outcomes_failed retries); [done|]. intros i. apply attempt_error_failure.
    - assert (Fs.can_open fs filename = true) as Hfs by congruence.
      destruct (can_open_shape _ _ Hfs). by apply lookup_written. }
  rewrite Hrun. cbn [snd]. split; [done|]. split; [done|].
  assert (Fs.exists_ (files w1) filename = true) as He.
  { unfold Fs.exists_. rewrite Hlook. by apply bool_decide_eq_true. }
  rewrite (download_file_present later) by done. simpl. by rewrite added_app.
Qed.

End Partial.

(** ** More on search_items *)

Lemma chars_length (s : string) : length (Json.chars s) = String.length s.
Proof. induction s as [|c s IH]; simpl; [done|]. by rewrite IH. Qed.

Lemma len_iter (items : json) (count : Z) :
  Json.len items = Ok count ->
  exists docs, Json.iter items = Ok docs /\ count = Z.of_nat (length docs).
Proof.
  destruct items; simpl; try done; intros [= <-]; eexists; split; try done.
  - by rewrite chars_length.
  - by rewrite length_map.
Qed.

Lemma docs_of_len (r : result response) (items : json) (count : Z) :
  docs_of r = Ok (items, count) -> Json.len items = Ok count.
Proof.
  unfold docs_of. destruct r as [resp|e]; simpl; [|done].
  destruct (raise_for_status resp); simpl; [|done].
  destruct (response_json resp) as [doc|]; simpl; [|done].
  destruct (Json.get doc "response" (JDict [])) as [found|]; simpl; [|done].
  destruct (Json.get found "docs" (JList [])) as [it|]; simpl; [|done].
  destruct (Json.len it) as [n|] eqn:Hn; simpl; [|done]. by intros [= <- <-].
Qed.

(** [search_items] asks the server once, whatever the answer, and touches
    no file.  What it returns can always be iterated, so the loop of
    [main] never fails at its head; and the number it logs is the number
    of items the loop will visit. *)
Theorem search_items_returns_iterable (server : nat -> string -> result response)
    (query : string) (rows : Z) (w : world) :
  let run := exec server (search_items query rows) w in
  sent run.2 = (sent w ++ [search_url query rows])%list
  /\ files run.2 = files w
  /\ exists docs,
       Json.iter run.1 = Ok docs
       /\ (last (journal run.2) = Some (Console (FoundItems (Z.of_nat (length docs))))
           \/ (docs = [] /\ exists e, last (journal run.2) = Some (Console (SearchFailed e)))).
Proof.
  cbn zeta. rewrite search_items_run. cbn zeta.
  destruct (docs_of (server (length (sent w)) (search_url query rows)))
    as [[items count]|e] eqn:Hd; simpl.
  - split; [done|]. split; [done|].
    destruct (len_iter _ _ (docs_of_len _ _ _ Hd)) as (docs & Hi & ->).
    exists docs. split; [done|]. left. by rewrite last_app.
  - split; [done|]. split; [done|]. exists []. split; [done|]. right.
    split; [done|]. exists e. by rewrite last_app.
Qed.

(** A search answer without the key [response], or whose [response] has
    no key [docs], is no error: the search found nothing.  A [response]
    that is [null] is an error, logged, with the same empty result. *)
Theorem search_items_missing_keys (server : nat -> string -> result response)
    (query : string) (rows : Z) (w : world) (resp : response)
    (fields : list (string * json)) :
  let run := exec server (search_items query rows) w in
  server (length (sent w)) (search_url query rows) = Ok resp ->
  raise_for_status resp = Ok tt ->
  document resp = Some (JDict fields) ->
  (Json.assoc "response" fields = None
   \/ (exists inner, Json.assoc "response" fields = Some (JDict inner)
                     /\ Json.assoc "docs" inner = None) ->
   run.1 = JList []
   /\ added (journal w) (journal run.2)
      = [Log INFO (SearchingQuery (search_url query rows)); Console SearchingItems;
         Log INFO (FoundItems 0); Console (FoundItems 0)])
  /\ (Json.assoc "response" fields = Some JNull ->
      run.1 = JList []
      /\ added (journal w) (journal run.2)
         = [Log INFO (SearchingQuery (search_url query rows)); Console SearchingItems;
            Log ERROR (SearchFailed AttributeError);
            Console (SearchFailed AttributeError)]).
Proof.
  cbn zeta. intros Hr Hs Hd. rewrite search_items_run. cbn zeta. rewrite Hr.
  unfold docs_of, response_json. simpl. rewrite Hs, Hd. simpl. split.
  - intros [Hnone|(inner & Hsome & Hnone)].
    + rewrite Hnone. simpl. by rewrite added_app.
    + rewrite Hsome. simpl. rewrite Hnone. simpl. by rewrite added_app.
  - intros Hnull. rewrite Hnull. simpl. by rewrite added_app.
Qed.

(** ** More on download_torrent *)

Section SelectMore.

Variable partial_ratio : string -> string -> Z.

Lemma keep_torrents_filter (entries : list json) :
  Forall (fun file => exists name, name_of file = Ok name) entries ->
  keep_torrents entries = Ok (List.filter (wanted partial_ratio None) entries).
Proof.
  induction 1 as [|file rest (name & Hn) _ IH]; simpl; [done|].
  rewrite Hn, IH. simpl. unfold wanted. rewrite Hn. unfold passes. simpl.
  by rewrite andb_true_r.
Qed.

Lemma keep_matching_filter (k : string) (files : list json) :
  Forall (fun file => exists name, name_of file = Ok name) files ->
  keep_matching partial_ratio k files
  = Ok (List.filter
          (fun file => match name_of file with
                       | Ok name => match_terms partial_ratio name k 70
                       | Raise _ => false
                       end) files).
Proof.
  induction 1 as [|file rest (name & Hn) _ IH]; simpl; [done|].
  rewrite Hn, IH. simpl. done.
Qed.

Lemma filter_named (f : json -> bool) (l : list json) :
  Forall (fun file => exists name, name_of file = Ok name) l ->
  Forall (fun file => exists name, name_of file = Ok name) (List.filter f l).
Proof.
  induction 1 as [|file rest H _ IH]; simpl; [constructor|].
  destruct (f file); [by constructor|done].
Qed.

Lemma keep_torrents_malformed (good rest : list json) (bad : json) (e : exn) :
  Forall (fun file => exists name, name_of file = Ok name) good ->
  name_of bad = Raise e ->
  keep_torrents (good ++ bad :: rest) = Raise e.
Proof.
  intros Hgood Hbad. induction Hgood as [|file good (name & Hn) _ IH]; simpl.
  - by rewrite Hbad.
  - by rewrite Hn, IH.
Qed.

(** When every entry of the [files] array has a name, the files selected
    are exactly the entries whose name ends in [.torrent] and passes the
    keyword filter, in the order of the array: nothing that matches is
    left out. *)
Theorem select_files_complete (fields : list (string * json)) (entries : list json)
    (keyword : option string) :
  Json.assoc "files" fields = Some (JList entries) ->
  Forall (fun file => exists name, name_of file = Ok name) entries ->
  select_files partial_ratio (JDict fields) keyword
  = Ok (List.filter (wanted partial_ratio keyword) entries).
Proof.
  intros Hf Hall. unfold select_files. simpl. rewrite Hf. simpl.
  rewrite keep_torrents_filter by done. simpl.
  destruct (truthy keyword) as [k|] eqn:Hk.
  - rewrite keep_matching_filter by (by apply filter_named). f_equal.
    clear Hf. induction Hall as [|file rest (name & Hn) _ IH]; simpl; [done|].
    assert (wanted partial_ratio None file = Py.endswith name ".torrent") as ->.
    { unfold wanted, passes. rewrite Hn. simpl. apply andb_true_r. }
    assert (wanted partial_ratio keyword file
            = Py.endswith name ".torrent" && match_terms partial_ratio name k 70) as ->.
    { unfold wanted, passes. by rewrite Hn, Hk. }
    destruct (Py.endswith name ".torrent"); simpl; [|exact IH].
    rewrite Hn. destruct (match_terms partial_ratio name k 70); [|exact IH].
    f_equal. exact IH.
  - f_equal. clear Hf. induction Hall as [|file rest (name & Hn) _ IH]; simpl; [done|].
    assert (wanted partial_ratio None file = wanted partial_ratio keyword file) as ->.
    { unfold wanted, passes. by rewrite Hn, Hk. }
    destruct (wanted partial_ratio keyword file); [|exact IH]. f_equal. exact IH.
Qed.

End SelectMore.

(** One call of [download_file] adds one outcome to the journal. *)
Lemma download_file_outcome (server : nat -> string -> result response)
    (url dest_folder : string) (retries : Z) (w : world) :
  exists js o,
    journal (exec server (download_file url dest_folder retries) w).2
    = (journal w ++ js)%list
    /\ outcomes js = [o]
    /\ (o = Skipped (destination url dest_folder)
        \/ o = Succeeded (destination url dest_folder)
        \/ o = Failed url retries).
Proof.
  destruct (Fs.exists_ (files w) (destination url dest_folder)) eqn:He.
  - rewrite download_file_present by done. simpl. eexists _, _.
    split; [done|]. split; [done|]. by left.
  - rewrite download_file_absent by done. cbn zeta.
    destruct (attempts_outcome server url (destination url dest_folder) retries
                (Py.range retries) w) as (js & Hj & Hout).
    destruct (exec server (attempts _ _ _ _) w) as [[] w1]; simpl in *.
    + exists js, (Succeeded (destination url dest_folder)).
      split; [done|]. split; [tauto|]. right. by left.
    + eexists _, _. rewrite Hj, <- app_assoc. split; [done|].
      unfold outcomes in *. rewrite omap_app, Hout. split; [done|]. right. by right.
Qed.

Section TorrentMore.

Variable partial_ratio : string -> string -> Z.
Variable repr : json -> string.
Variable download_dir : string.
Variable max_retries : Z.
Variable server : nat -> string -> result response.

Local Abbreviation each_job := (download_each repr download_dir max_retries).
Local Abbreviation torrent_job :=
  (download_torrent partial_ratio repr download_dir max_retries).

Lemma download_each_outcomes (identifier : string) (selected : list json) :
  Forall (fun file => exists name, name_of file = Ok name) selected ->
  forall w : world,
    exists js outs,
      exec server (each_job identifier selected) w
      = (Ok tt, (exec server (each_job identifier selected) w).2)
      /\ journal (exec server (each_job identifier selected) w).2
         = (journal w ++ js)%list
      /\ outcomes js = outs
      /\ Forall2 (reported_for download_dir max_retries identifier) selected outs.
Proof.
  induction 1 as [|file rest (name & Hname) _ IH]; intros w.
  - exists [], []. simpl. rewrite app_nil_r. repeat split; constructor.
  - cbn [download_each]. rewrite (name_of_subscript _ _ Hname). cbn [fstr].
    rewrite exec_bind.
    destruct (download_file_outcome server (torrent_url identifier name)
                download_dir max_retries w) as (js1 & o & Hj1 & Ho & Hcase).
    match goal with |- context [exec server (each_job identifier rest) ?x] =>
      destruct (IH x) as (js2 & outs & Hok & Hj2 & Hout & Hall) end.
    exists (js1 ++ js2)%list, (o :: outs).
    split; [by rewrite Hok at 1|].
    split; [by rewrite Hj2, Hj1, <- app_assoc|].
    split.
    + unfold outcomes in *. by rewrite omap_app, Ho, Hout.
    + constructor; [|done]. by exists name.
Qed.

(** A metadata request that fails (the request raises, the status is an
    error, the body is not JSON) is logged as an error for that item and
    nothing else happens: no file is requested or written, and
    [download_torrent] returns. *)
Theorem metadata_failure_is_logged (identifier : string) (keyword : option string)
    (w : world) (e : exn) :
  metadata_of (server (length (sent w)) (metadata_url identifier)) = Raise e ->
  exec server (torrent_job identifier keyword) w
  = (tt, World (files w) (sent w ++ [metadata_url identifier])
           (journal w
            ++ [Log INFO (FetchingMetadata (metadata_url identifier));
                Console (FetchingMetadata identifier);
                Log ERROR (MetadataFailed identifier e);
                Console (MetadataFailed identifier e)])).
Proof.
  intros H. unfold download_torrent, process_metadata. simpl.
  unfold metadata_of in H. rewrite H. simpl. by world.
Qed.

(** One entry of the [files] array without a usable name spoils the item:
    the selection raises before any download starts, so not even the
    torrents listed before that entry are fetched. *)
Theorem malformed_entry_stops_item (identifier : string) (keyword : option string)
    (w : world) (fields : list (string * json)) (good rest : list json)
    (bad : json) (e : exn) :
  metadata_of (server (length (sent w)) (metadata_url identifier)) = Ok (JDict fields) ->
  Json.assoc "files" fields = Some (JList (good ++ bad :: rest)) ->
  Forall (fun file => exists name, name_of file = Ok name) good ->
  name_of bad = Raise e ->
  exec server (torrent_job identifier keyword) w
  = (tt, World (files w) (sent w ++ [metadata_url identifier])
           (journal w
            ++ [Log INFO (FetchingMetadata (metadata_url identifier));
                Console (FetchingMetadata identifier);
                Log ERROR (MetadataFailed identifier e);
                Console (MetadataFailed identifier e)])).
Proof.
  intros Hm Hf Hgood Hbad. unfold download_torrent, process_metadata. simpl.
  unfold metadata_of in Hm. rewrite Hm. simpl. rewrite Hf. simpl.
  unfold select_files. simpl. rewrite Hf. simpl.
  rewrite (keep_torrents_malformed good rest bad e) by done. simpl. by world.
Qed.

(** For an item whose metadata can be read, every selected file gets one
    report, in the order of the selection: a skip, a download or a
    failure for its own URL.  No error is logged for the item itself.
    The identifier, the keyword, and the URL and destination of every
    selected file are texts that the console prints: on a closing tag in
    one of them the exception would leave [download_file] and the loop,
    and the files after it would get no report. *)
Theorem one_report_per_selected_file (identifier : string) (keyword : option string)
    (w : world) (metadata : json) (selected : list json) :
  let w' := (exec server (torrent_job identifier keyword) w).2 in
  no_closing_tag identifier = true ->
  no_closing_tag (keyword_text keyword) = true ->
  (forall file name,
     file ∈ selected -> name_of file = Ok name ->
     no_closing_tag (torrent_url identifier name) = true
     /\ no_closing_tag (destination (torrent_url identifier name) download_dir) = true) ->
  metadata_of (server (length (sent w)) (metadata_url identifier)) = Ok metadata ->
  Json.contains "files" metadata = Ok true ->
  select_files partial_ratio metadata keyword = Ok selected ->
  Forall2 (reported_for download_dir max_retries identifier) selected
    (outcomes (added (journal w) (journal w'))).
Proof.
  cbn zeta. intros _ _ _ Hm Hc Hsel.
  destruct (select_files_sound _ _ _ _ Hsel) as (listed & entries & _ & _ & Hall).
  assert (Forall (fun file => exists name, name_of file = Ok name) selected) as Hnamed.
  { eapply Forall_impl; [exact Hall|]. intros file (_ & name & Hn & _). eauto. }
  unfold download_torrent, process_metadata. simpl.
  unfold metadata_of in Hm. rewrite Hm. simpl. rewrite Hc, Hsel.
  rewrite !exec_bind.
  match goal with |- context [exec server (each_job identifier selected) ?x] =>
    destruct (download_each_outcomes identifier selected Hnamed x)
      as (js & outs & Hok & Hj & Hout & Hrep);
    assert (exists pre, journal x = (journal w ++ pre)%list /\ outcomes pre = [])
      as (pre & Hpre & Hnone)
  end.
  { destruct selected; simpl; eexists; (split; [by world|done]). }
  rewrite Hok. cbn [fst snd]. simpl. rewrite Hj, Hpre, <- app_assoc, added_app.
  unfold outcomes in *. by rewrite omap_app, Hnone, Hout.
Qed.

End TorrentMore.

(** ** Where programs write *)

Lemma write_chunks_elsewhere (fs : gmap string node) (path other : string)
    (received : list bytes) (failure : option exn) :
  other <> path ->
  (Fs.write_chunks fs path received failure).2 !! other = fs !! other.
Proof.
  intros H. unfold Fs.write_chunks. destruct (Fs.can_open fs path); [|done].
  simpl. by rewrite lookup_insert_ne.
Qed.

Lemma stores_only_bind (Q : string -> Prop) {A B : Type} (p : prog A)
    (f : A -> prog B) :
  stores_only Q p -> (forall a, stores_only Q (f a)) -> stores_only Q (bind p f).
Proof.
  intros Hp Hf. induction Hp; simpl; try (constructor; auto). apply Hf.
Qed.

Lemma stores_only_weaken (Q R : string -> Prop) {A : Type} (p : prog A) :
  (forall path, Q path -> R path) -> stores_only Q p -> stores_only R p.
Proof. intros H Hp. induction Hp; constructor; auto. Qed.

Section Writes.

Variable server : nat -> string -> result response.
Variable Q : string -> Prop.

Lemma step_stores_only {A : Type} (p : prog A) (w : world) :
  stores_only Q p ->
  stores_only Q (step server p w).1
  /\ forall path, ~ Q path -> files (step server p w).2 !! path = files w !! path.
Proof.
  destruct 1 as [a|url k H|path k H|path rc fl k Hq H|e k H]; simpl.
  - split; [constructor|done].
  - split; [apply H|done].
  - split; [apply H|done].
  - pose proof (write_chunks_elsewhere (files w) path) as He.
    destruct (Fs.write_chunks (files w) path rc fl) as [r fs] eqn:Hw.
    split; [apply H|]. intros other Ho. simpl.
    specialize (He other rc fl). rewrite Hw in He. apply He. by intros ->.
  - split; [done|done].
Qed.

Lemma exec_stores_only {A : Type} (p : prog A) :
  stores_only Q p ->
  forall w path, ~ Q path -> files (exec server p w).2 !! path = files w !! path.
Proof.
  induction 1 as [a|url k _ IH|path k _ IH|path rc fl k Hq _ IH|e k _ IH];
    intros w other Ho; simpl.
  - done.
  - by rewrite IH.
  - by rewrite IH.
  - pose proof (write_chunks_elsewhere (files w) path other rc fl) as He.
    destruct (Fs.write_chunks (files w) path rc fl) as [r fs].
    rewrite IH by done. simpl. apply He. by intros ->.
  - by rewrite IH.
Qed.

Lemma drain_stores_only (tasks : list (prog unit)) :
  Forall (stores_only Q) tasks ->
  forall w path, ~ Q path -> files (drain server tasks w) !! path = files w !! path.
Proof.
  induction 1 as [|t tasks Ht _ IH]; intros w path Hp; simpl; [done|].
  rewrite IH by done. by apply exec_stores_only.
Qed.

Lemma run_pool_stores_only (sched : list choice) :
  forall (running queue : list (prog unit)) (w : world),
    Forall (stores_only Q) (running ++ queue) ->
    forall path, ~ Q path ->
      files (run_pool server sched running queue w) !! path = files w !! path.
Proof.
  induction sched as [|[|i] sched IH]; intros running queue w Hall path Hp; simpl.
  - by apply drain_stores_only.
  - destruct queue as [|t queue]; [by apply IH|].
    destruct (length running <? max_workers)%nat; [|by apply IH].
    apply IH; [|done]. by rewrite <- app_assoc.
  - destruct (running !! i) as [t|] eqn:Hi; [|by apply IH].
    apply Forall_app in Hall as [Hrun Hq].
    assert (stores_only Q t) as Ht.
    { rewrite Forall_forall in Hrun. apply Hrun. by eapply list_elem_of_lookup_2. }
    destruct (step_stores_only t w Ht) as [Ht' Hfiles].
    destruct (step server t w) as [t' w']. simpl in *.
    rewrite IH; [by apply Hfiles| |done].
    apply Forall_app. split; [|done].
    destruct (is_done t').
    + by apply Forall_delete.
    + by apply Forall_insert.
Qed.

End Writes.

(** ** What programs leave alone *)

Lemma spares_bind (fs : gmap string node) {A B : Type} (p : prog A)
    (f : A -> prog B) :
  spares fs p -> (forall a, spares fs (f a)) -> spares fs (bind p f).
Proof.
  intros Hp Hf. induction Hp; simpl.
  - apply Hf.
  - constructor; auto.
  - apply spares_exists; auto.
  - apply spares_checked; auto.
  - constructor; auto.
  - constructor; auto.
Qed.

Lemma keeps_refl (fs : gmap string node) : keeps fs fs.
Proof. by intros path n. Qed.

Lemma occupied_exists (fs0 fs : gmap string node) (path : string) :
  keeps fs0 fs -> occupied fs0 path -> Fs.exists_ fs path = true.
Proof.
  intros Hk (Hne & He & [n Hn]). apply Hk in Hn.
  unfold Fs.exists_, Fs.lookup. apply bool_decide_eq_true.
  rewrite locate_no_trailing by done.
  destruct (decide (path = "")); [done|].
  destruct (decide (path = "/")); [done|].
  rewrite Hn, He. by destruct n.
Qed.

Lemma write_chunks_keeps (fs0 fs : gmap string node) (path : string)
    (received : list bytes) (failure : option exn) :
  keeps fs0 fs ->
  fs0 !! path = None \/ path = "" \/ Py.endswith path "/" = true ->
  keeps fs0 (Fs.write_chunks fs path received failure).2.
Proof.
  intros Hk Hfree. unfold Fs.write_chunks.
  destruct (Fs.can_open fs path) eqn:Hopen; [|done]. simpl.
  destruct (can_open_shape _ _ Hopen) as [Hne He].
  destruct Hfree as [Hnone|[->|Hs]]; [|done|congruence].
  intros other n Hn. rewrite lookup_insert_ne; [by apply Hk|]. congruence.
Qed.

Section Spares.

Variable server : nat -> string -> result response.
Variable fs0 : gmap string node.

Lemma step_spares {A : Type} (p : prog A) (w : world) :
  keeps fs0 (files w) -> spares fs0 p ->
  spares fs0 (step server p w).1 /\ keeps fs0 (files (step server p w).2).
Proof.
  intros Hk. destruct 1 as [a|url k H|path k H|path k Ho H|path rc fl k Hf H|e k H];
    simpl.
  - split; [constructor|done].
  - split; [apply H|done].
  - split; [apply H|done].
  - rewrite (occupied_exists fs0) by done. split; done.
  - pose proof (write_chunks_keeps fs0 (files w) path rc fl Hk Hf) as Hw.
    destruct (Fs.write_chunks (files w) path rc fl) as [r fs]. split; [apply H|done].
  - split; done.
Qed.

Lemma exec_spares {A : Type} (p : prog A) :
  spares fs0 p -> forall w, keeps fs0 (files w) -> keeps fs0 (files (exec server p w).2).
Proof.
  induction 1 as [a|url k _ IH|path k _ IH|path k Ho _ IH|path rc fl k Hf _ IH|e k _ IH];
    intros w Hk; simpl.
  - done.
  - by apply IH.
  - by apply IH.
  - rewrite (occupied_exists fs0) by done. by apply IH.
  - pose proof (write_chunks_keeps fs0 (files w) path rc fl Hk Hf) as Hw.
    destruct (Fs.write_chunks (files w) path rc fl) as [r fs]. by apply IH.
  - by apply IH.
Qed.

Lemma drain_spares (tasks : list (prog unit)) :
  Forall (spares fs0) tasks ->
  forall w, keeps fs0 (files w) -> keeps fs0 (files (drain server tasks w)).
Proof.
  induction 1 as [|t tasks Ht _ IH]; intros w Hk; simpl; [done|].
  apply IH. by apply exec_spares.
Qed.

Lemma run_pool_spares (sched : list choice) :
  forall (running queue : list (prog unit)) (w : world),
    Forall (spares fs0) (running ++ queue) ->
    keeps fs0 (files w) ->
    keeps fs0 (files (run_pool server sched running queue w)).
Proof.
  induction sched as [|[|i] sched IH]; intros running queue w Hall Hk; simpl.
  - by apply drain_spares.
  - destruct queue as [|t queue]; [by apply IH|].
    destruct (length running <? max_workers)%nat; [|by apply IH].
    apply IH; [|done]. by rewrite <- app_assoc.
  - destruct (running !! i) as [t|] eqn:Hi; [|by apply IH].
    apply Forall_app in Hall as [Hrun Hq].
    assert (spares fs0 t) as Ht.
    { rewrite Forall_forall in Hrun. apply Hrun. by eapply list_elem_of_lookup_2. }
    destruct (step_spares t w Hk Ht) as [Ht' Hk'].
    destruct (step server t w) as [t' w']. simpl in *.
    apply IH; [|done]. apply Forall_app. split; [|done].
    destruct (is_done t').
    + by apply Forall_delete.
    + by apply Forall_insert.
Qed.

End Spares.

(** ** The writes of the script *)

Lemma emit_stores_only (Q : string -> Prop) (e : event) :
  stores_only Q (Emit e (Ret tt)).
Proof. repeat constructor. Qed.

Lemma emit_spares (fs : gmap string node) (e : event) : spares fs (Emit e (Ret tt)).
Proof. repeat constructor. Qed.

Lemma fetch_once_stores_only (Q : string -> Prop) (url filename : string) :
  Q filename -> stores_only Q (fetch_once url filename).
Proof.
  intros Hq. unfold fetch_once. simpl. constructor. intros [resp|e]; simpl.
  - destruct (status_code resp =? 200); simpl; [|repeat constructor].
    constructor; [done|]. intros [[]|e]; simpl; repeat constructor.
  - constructor.
Qed.

Lemma fetch_once_spares (fs : gmap string node) (url filename : string) :
  fs !! filename = None \/ filename = "" \/ Py.endswith filename "/" = true ->
  spares fs (fetch_once url filename).
Proof.
  intros Hq. unfold fetch_once. simpl. constructor. intros [resp|e]; simpl.
  - destruct (status_code resp =? 200); simpl; [|repeat constructor].
    constructor; [done|]. intros [[]|e]; simpl; repeat constructor.
  - constructor.
Qed.

Lemma attempts_stores_only (Q : string -> Prop) (url filename : string)
    (retries : Z) (todo : list Z) :
  Q filename -> stores_only Q (attempts url filename retries todo).
Proof.
  intros Hq. induction todo as [|attempt todo IH]; [constructor|].
  cbn [attempts]. apply stores_only_bind; [by apply fetch_once_stores_only|].
  intros [[]|e]; simpl; repeat constructor; exact IH.
Qed.

Lemma attempts_spares (fs : gmap string node) (url filename : string)
    (retries : Z) (todo : list Z) :
  fs !! filename = None \/ filename = "" \/ Py.endswith filename "/" = true ->
  spares fs (attempts url filename retries todo).
Proof.
  intros Hq. induction todo as [|attempt todo IH]; [constructor|].
  cbn [attempts]. apply spares_bind; [by apply fetch_once_spares|].
  intros [[]|e]; simpl; repeat constructor; exact IH.
Qed.

Lemma download_file_stores_only (url dest_folder : string) (retries : Z) :
  stores_only (fun path => path = destination url dest_folder)
    (download_file url dest_folder retries).
Proof.
  unfold download_file. simpl. constructor. intros [|]; simpl.
  - repeat constructor.
  - apply stores_only_bind; [by apply attempts_stores_only|].
    intros [|]; simpl; repeat constructor.
Qed.

Lemma download_file_spares (fs : gmap string node) (url dest_folder : string)
    (retries : Z) :
  spares fs (download_file url dest_folder retries).
Proof.
  unfold download_file. simpl.
  set (filename := destination url dest_folder).
  destruct (fs !! filename) as [n|] eqn:Hn.
  - destruct (decide (filename = "")) as [Hempty|Hne].
    + apply spares_exists. intros [|]; simpl; [repeat constructor|].
      apply spares_bind; [apply attempts_spares; tauto|].
      intros [|]; simpl; repeat constructor.
    + destruct (Py.endswith filename "/") eqn:He.
      * apply spares_exists. intros [|]; simpl; [repeat constructor|].
        apply spares_bind; [apply attempts_spares; tauto|].
        intros [|]; simpl; repeat constructor.
      * apply spares_checked; [|simpl; repeat constructor].
        split; [done|]. split; [done|]. by rewrite Hn.
  - apply spares_exists. intros [|]; simpl; [repeat constructor|].
    apply spares_bind; [apply attempts_spares; tauto|].
    intros [|]; simpl; repeat constructor.
Qed.

(** [download_file] changes no entry of the file system but its
    destination, and keeps every entry that was there before: a file that
    exists is never overwritten. *)
Theorem download_file_changes_only_new_destination
    (server : nat -> string -> result response)
    (url dest_folder : string) (retries : Z) (w : world) :
  let w' := (exec server (download_file url dest_folder retries) w).2 in
  (forall path, path <> destination url dest_folder ->
                files w' !! path = files w !! path)
  /\ (forall path n, files w !! path = Some n -> files w' !! path = Some n).
Proof.
  cbn zeta. split.
  - intros path Hne.
    by apply (exec_stores_only server _ _ (download_file_stores_only url dest_folder retries)).
  - apply (exec_spares server (files w) _ (download_file_spares _ url dest_folder retries)
             w (keeps_refl _)).
Qed.

Section ScriptWrites.

Variable partial_ratio : string -> string -> Z.
Variable repr : json -> string.
Variable download_dir : string.
Variable max_retries : Z.

Lemma destination_in_download_dir (url : string) :
  in_folder download_dir (destination url download_dir).
Proof.
  exists (Py.last_field "/" url). split; [|done].
  by apply last_field_from_no_slash_result.
Qed.

Lemma download_torrent_stores_only (identifier : string) (keyword : option string) :
  stores_only (in_folder download_dir)
    (download_torrent partial_ratio repr download_dir max_retries identifier keyword).
Proof.
  assert (forall selected,
            stores_only (in_folder download_dir)
              (download_each repr download_dir max_retries identifier selected)) as Heach.
  { induction selected as [|file rest IH]; [constructor|]. cbn [download_each].
    destruct (Json.subscript file "name"); [|constructor].
    apply stores_only_bind; [|done].
    eapply stores_only_weaken; [|apply download_file_stores_only].
    intros path ->. apply destination_in_download_dir. }
  unfold download_torrent. simpl. do 3 constructor. intros r.
  apply stores_only_bind; [|intros [[]|e]; simpl; repeat constructor].
  unfold process_metadata.
  destruct (and_then r _) as [metadata|e]; [|constructor].
  destruct (Json.contains "files" metadata) as [[|]|e]; simpl; try repeat constructor.
  destruct (select_files partial_ratio metadata keyword) as [selected|e]; [|constructor].
  apply stores_only_bind; [|done]. destruct selected; simpl; repeat constructor.
Qed.

Lemma download_torrent_spares (fs : gmap string node) (identifier : string)
    (keyword : option string) :
  spares fs
    (download_torrent partial_ratio repr download_dir max_retries identifier keyword).
Proof.
  assert (forall selected,
            spares fs
              (download_each repr download_dir max_retries identifier selected)) as Heach.
  { induction selected as [|file rest IH]; [constructor|]. cbn [download_each].
    destruct (Json.subscript file "name"); [|constructor].
    apply spares_bind; [|done]. apply download_file_spares. }
  unfold download_torrent. simpl. do 3 constructor. intros r.
  apply spares_bind; [|intros [[]|e]; simpl; repeat constructor].
  unfold process_metadata.
  destruct (and_then r _) as [metadata|e]; [|constructor].
  destruct (Json.contains "files" metadata) as [[|]|e]; simpl; try repeat constructor.
  destruct (select_files partial_ratio metadata keyword) as [selected|e]; [|constructor].
  apply spares_bind; [|done]. destruct selected; simpl; repeat constructor.
Qed.

Lemma submit_all_tasks (P : prog unit -> Prop) (docs : list json)
    (keyword : option string) :
  (forall identifier,
     P (download_torrent partial_ratio repr download_dir max_retries identifier keyword)) ->
  Forall P (submit_all partial_ratio repr download_dir max_retries docs keyword).1.
Proof.
  intros HP. induction docs as [|item docs IH]; simpl; [constructor|].
  destruct (Json.subscript item "identifier"); [|constructor].
  destruct (submit_all _ _ _ _ docs keyword). simpl in *. by constructor.
Qed.

(** However the workers are scheduled, a run of [main] changes no entry
    of the file system outside the download directory, and keeps every
    entry that was there before: no file that exists is overwritten or
    removed. *)
Theorem main_changes_only_new_downloads
    (server : nat -> string -> result response) (sched : list choice)
    (query : string) (num_items : Z) (keyword : option string) (w : world) :
  let w' := (main partial_ratio repr download_dir max_retries server
               sched query num_items keyword w).2 in
  (forall path, ~ in_folder download_dir path -> files w' !! path = files w !! path)
  /\ (forall path n, files w !! path = Some n -> files w' !! path = Some n).
Proof.
  cbn zeta. unfold main. rewrite search_items_run. cbn zeta.
  set (answer := docs_of (server (length (sent w)) (search_url query num_items))).
  assert (exists items w1,
            match answer with
            | Ok (items, count) =>
                (items, World (files w) (sent w ++ [search_url query num_items])
                          (journal w
                           ++ [Log INFO (SearchingQuery (search_url query num_items));
                               Console SearchingItems]
                           ++ [Log INFO (FoundItems count); Console (FoundItems count)]))
            | Raise e =>
                (JList [], World (files w) (sent w ++ [search_url query num_items])
                             (journal w
                              ++ [Log INFO (SearchingQuery (search_url query num_items));
                                  Console SearchingItems]
                              ++ [Log ERROR (SearchFailed e); Console (SearchFailed e)]))
            end = (items, w1) /\ files w1 = files w) as (items & w1 & -> & Hw1).
  { destruct answer as [[items count]|e]; eexists _, _; split; done. }
  destruct (Json.iter items) as [docs|e]; [|simpl; rewrite Hw1; by split].
  pose proof (submit_all_tasks (stores_only (in_folder download_dir)) docs keyword
                (fun identifier => download_torrent_stores_only identifier keyword))
    as Hstores.
  pose proof (submit_all_tasks (spares (files w)) docs keyword
                (fun identifier => download_torrent_spares (files w) identifier keyword))
    as Hspares.
  destruct (submit_all _ _ _ _ docs keyword) as [tasks ended]. simpl in *.
  split.
  - intros path Hout. rewrite <- Hw1.
    by apply (run_pool_stores_only server (in_folder download_dir)).
  - apply (run_pool_spares server (files w) sched [] tasks w1); [done|].
    rewrite Hw1. apply keeps_refl.
Qed.

End ScriptWrites.

(** ** More on main *)

Section MainMore.

Variable partial_ratio : string -> string -> Z.
Variable repr : json -> string.
Variable download_dir : string.
Variable max_retries : Z.
Variable server : nat -> string -> result response.

Local Abbreviation main_run := (main partial_ratio repr download_dir max_retries server).
Local Abbreviation submitted :=
  (submit_all partial_ratio repr download_dir max_retries).

Lemma loop_end_identified (docs : list json) :
  Forall (fun item => exists v, Json.subscript item "identifier" = Ok v) docs ->
  loop_end docs = Ok tt.
Proof. induction 1 as [|item docs (v & Hv) _ IH]; simpl; [done|]. by rewrite Hv. Qed.

Lemma submit_all_stops (good rest : list json) (bad : json) (e : exn)
    (keyword : option string) :
  Forall (fun item => exists v, Json.subscript item "identifier" = Ok v) good ->
  Json.subscript bad "identifier" = Raise e ->
  submitted (good ++ bad :: rest)%list keyword = ((submitted good keyword).1, Raise e).
Proof.
  intros Hgood Hbad. induction Hgood as [|item good (v & Hv) _ IH]; simpl.
  - by rewrite Hbad.
  - rewrite Hv, IH. by destruct (submitted good keyword).
Qed.

Lemma main_result_run (sched : list choice) (query : string) (num_items : Z)
    (keyword : option string) (w : world) :
  (main_run sched query num_items keyword w).1
  = main_result (server (length (sent w)) (search_url query num_items)).
Proof.
  unfold main, main_result. rewrite search_items_run. cbn zeta.
  destruct (docs_of (server (length (sent w)) (search_url query num_items)))
    as [[items count]|e]; simpl; [|done].
  destruct (Json.iter items) as [docs|e]; [|done].
  rewrite <- (submit_all_end partial_ratio repr download_dir max_retries docs keyword).
  by destruct (submitted docs keyword).
Qed.

(** A search document without a usable [identifier] makes [main] raise,
    but only after the work submitted before it is done: the documents
    that precede it are processed (the metadata of each is among the
    requests of this run, for an identifier that the console prints), it
    and those after it are not submitted. *)
Theorem main_stops_at_bad_document (sched : list choice) (query : string)
    (num_items : Z) (keyword : option string) (w : world)
    (items bad : json) (count : Z) (good rest : list json) (e : exn) :
  let run := main_run sched query num_items keyword w in
  docs_of (server (length (sent w)) (search_url query num_items)) = Ok (items, count) ->
  Json.iter items = Ok (good ++ bad :: rest)%list ->
  Forall (fun item => exists v, Json.subscript item "identifier" = Ok v) good ->
  Json.subscript bad "identifier" = Raise e ->
  run.1 = Raise e
  /\ (submitted (good ++ bad :: rest)%list keyword).1 = (submitted good keyword).1
  /\ length (submitted good keyword).1 = length good
  /\ forall item v, item ∈ good -> Json.subscript item "identifier" = Ok v ->
                    no_closing_tag (fstr repr v) = true ->
                    metadata_url (fstr repr v) ∈ added (sent w) (sent run.2).
Proof.
  cbn zeta. intros Hdocs Hiter Hgood Hbad.
  pose proof (submit_all_stops good rest bad e keyword Hgood Hbad) as Hstop.
  split; [|split; [|split]].
  - unfold main. rewrite search_items_run. cbn zeta. rewrite Hdocs, Hiter, Hstop. done.
  - by rewrite Hstop.
  - clear Hstop Hiter. induction Hgood as [|item good (v & Hv) _ IH]; simpl; [done|].
    rewrite Hv. destruct (submitted good keyword). simpl in *. by rewrite IH.
  - intros item v Hin Hv _.
    pose proof (submit_all_requests partial_ratio repr download_dir max_retries
                  good keyword item v (loop_end_identified good Hgood) Hin Hv) as Hreq.
    unfold main. rewrite search_items_run. cbn zeta. rewrite Hdocs, Hiter, Hstop.
    simpl. apply run_pool_requests; [|done]. simpl. rewrite length_app. lia.
Qed.

End MainMore.

(** ** The interactive loop *)

Lemma lstrip_empty_blank (s : string) : Py.lstrip s = "" -> blank s = true.
Proof.
  induction s as [|c s IH]; simpl; [done|].
  destruct (Py.isspace c); [by apply IH|done].
Qed.

Lemma rstrip_blank_empty (s : string) : blank (Py.rstrip s) = true -> Py.rstrip s = "".
Proof.
  induction s as [|c s IH]; simpl; [done|].
  destruct (Py.rstrip s) as [|x kept].
  - destruct (Py.isspace c) eqn:Hc; [done|]. simpl. by rewrite Hc.
  - intros H. cbn [blank] in H. apply andb_true_iff in H as [_ H].
    specialize (IH H). done.
Qed.

Lemma strip_empty_blank (s : string) : Py.strip s = "" -> blank s = true.
Proof.
  unfold Py.strip. intros H. apply lstrip_empty_blank in H.
  apply rstrip_blank_empty in H. by apply rstrip_empty_blank.
Qed.

Section ProgramMore.

Variable partial_ratio : string -> string -> Z.
Variable repr : json -> string.
Variable download_dir : string.
Variable max_retries : Z.
Variable server : nat -> string -> result response.

Local Abbreviation program := (run_program partial_ratio repr download_dir max_retries server).

(** What is typed as keyword is stripped before it is used.  Typing white
    space only is typing nothing: the query is [format:Torrent] and no
    file is filtered.  Otherwise the keyword is added to the query, it is
    not empty (so the filter of [download_torrent] is applied), and it
    has the terms of what was typed, so [match_terms] decides as it would
    on the text typed. *)
Theorem keyword_entered_is_stripped (typed : string) :
  (blank typed = true ->
   keyword_entered typed = None
   /\ query_for (keyword_entered typed) = "format:Torrent")
  /\ (blank typed = false ->
      keyword_entered typed = Some (Py.strip typed)
      /\ truthy (keyword_entered typed) = Some (Py.strip typed)
      /\ query_for (keyword_entered typed) = "format:Torrent AND " +:+ Py.strip typed
      /\ forall text threshold,
           match_terms partial_ratio text (Py.strip typed) threshold
           = match_terms partial_ratio text typed threshold).
Proof.
  split.
  - intros Hb. unfold keyword_entered. rewrite strip_blank by done. done.
  - intros Hb.
    assert (Py.strip typed <> "") as Hne.
    { intros H. apply strip_empty_blank in H. congruence. }
    assert (keyword_entered typed = Some (Py.strip typed)) as ->.
    { unfold keyword_entered. cbn zeta. by destruct (decide (Py.strip typed = "")). }
    assert (truthy (Some (Py.strip typed)) = Some (Py.strip typed)) as Ht.
    { unfold truthy. by destruct (decide (Py.strip typed = "")). }
    split; [done|]. split; [done|]. split.
    + unfold query_for. by rewrite Ht.
    + intros text threshold. unfold match_terms.
      by rewrite lower_strip, split_strip.
Qed.

(** Rounds follow one another: while the program waits for an answer, the
    next answers are handled from the world the earlier ones left; once
    the user has chosen to quit, or [main] has raised, no further answer
    is read. *)
Theorem run_program_continues (answers more : list answer) (w : world) :
  program (answers ++ more) w
  = match program answers w with
    | (Waiting, w') => program more w'
    | ended => ended
    end.
Proof.
  revert w. induction answers as [|[typed n workers|] answers IH]; intros w; simpl.
  - done.
  - destruct (main _ _ _ _ _ _ _ _ _ w) as [[[]|e] w']; [apply IH|done].
  - done.
Qed.

(** [run_program] does not catch what [main] raises: a search document
    without a usable [identifier] ends the program, whatever answers would
    follow. *)
Theorem run_program_crashes_with_main (typed : string) (num_items : Z)
    (workers : list choice) (later : list answer) (w : world) (e : exn) :
  let keyword := keyword_entered typed in
  main_result (server (length (sent w)) (search_url (query_for keyword) num_items))
  = Raise e ->
  (program (Search typed num_items workers :: later) w).1 = Crashed e.
Proof.
  cbn zeta. intros H. simpl.
  pose proof (main_result_run partial_ratio repr download_dir max_retries server workers
                (query_for (keyword_entered typed)) num_items
                (keyword_entered typed) w) as Hm.
  rewrite H in Hm.
  destruct (main _ _ _ _ _ _ _ _ _ w) as [[[]|e'] w']; simpl in *; congruence.
Qed.

End ProgramMore.

Import Scenario.

(** ** The further properties on concrete runs *)

Lemma match_terms_threshold_monotone_witness :
  50 <= 70
  /\ match_terms occurs "ubuntu-22.04-desktop.torrent" "ubuntu desktop" 70 = true
  /\ match_terms occurs "ubuntu-22.04-desktop.torrent" "ubuntu desktop" 50 = true.
Proof.
  split; [lia|]. split; [reflexivity|].
  apply (match_terms_threshold_monotone occurs _ _ 70 50); [lia|reflexivity].
Defined.

Lemma match_terms_joined_witness :
  Py.isspace " " = true
  /\ match_terms occurs "ubuntu-22.04-desktop.torrent" ("ubuntu" +:+ String " " "server") 70
     = match_terms occurs "ubuntu-22.04-desktop.torrent" "ubuntu" 70
       && match_terms occurs "ubuntu-22.04-desktop.torrent" "server" 70.
Proof.
  split; [reflexivity|].
  exact (proj1 (match_terms_joined occurs "ubuntu-22.04-desktop.torrent"
                  "ubuntu" "server" " " 70 eq_refl)).
Defined.

Lemma download_file_first_success_witness :
  let w' := (exec (flaky 2) (download_file a_torrent "torrent_files" 3) disk).2 in
  no_closing_tag a_torrent = true
  /\ no_closing_tag (destination a_torrent "torrent_files") = true
  /\ Fs.exists_ (files disk) (destination a_torrent "torrent_files") = false
  /\ added (sent disk) (sent w') = [a_torrent; a_torrent; a_torrent]
  /\ Fs.lookup (files w') "torrent_files/a.torrent" = Some (File (concat body))
  /\ outcomes (added (journal disk) (journal w')) = [Succeeded "torrent_files/a.torrent"]
  /\ length (attempt_errors (added (journal disk) (journal w'))) = 2%nat.
Proof.
  split; [reflexivity|]. split; [reflexivity|]. split; [reflexivity|].
  apply (download_file_first_success (flaky 2) a_torrent "torrent_files" 3 disk 2
           (Response 200 body None None)).
  - reflexivity.
  - reflexivity.
  - reflexivity.
  - vm_compute. lia.
  - intros [|[|i]] Hi; [reflexivity|reflexivity|lia].
  - reflexivity.
  - reflexivity.
Defined.

Lemma download_file_no_attempts_witness :
  (-1) <= 0
  /\ exec unreachable (download_file a_torrent "torrent_files" (-1)) disk
     = (tt, World (files disk) []
              [Log ERROR (GaveUp (-1) a_torrent); Console (GaveUp (-1) a_torrent)]).
Proof.
  split; [lia|].
  apply (download_file_no_attempts unreachable a_torrent "torrent_files" (-1) disk);
    [lia|reflexivity].
Defined.

Lemma destination_in_folder_witness :
  "torrent_files" <> ""
  /\ Py.endswith "torrent_files" "/" = false
  /\ destination a_torrent "torrent_files" = "torrent_files/a.torrent"
  /\ Fs.dirname (destination a_torrent "torrent_files") = Some "torrent_files".
Proof.
  split; [discriminate|]. split; [reflexivity|].
  exact (proj2 (destination_in_folder a_torrent "torrent_files")
           ltac:(discriminate) eq_refl).
Defined.

Lemma same_name_is_skipped_witness :
  let url1 := "https://archive.org/download/item1" +:+ "/" +:+ "a.torrent" in
  let url2 := "https://archive.org/download/item2" +:+ "/" +:+ "a.torrent" in
  let w1 := (exec (status 200) (download_file url1 "torrent_files" 3) disk).2 in
  let w2 := (exec (status 200) (download_file url2 "torrent_files" 3) w1).2 in
  no_slash "a.torrent" = true
  /\ destination url2 "torrent_files" = destination url1 "torrent_files"
  /\ outcomes (added (journal w1) (journal w2)) = [Skipped (destination url1 "torrent_files")]
  /\ sent w2 = sent w1 /\ files w2 = files w1.
Proof.
  split; [reflexivity|].
  apply (same_name_is_skipped "torrent_files" "https://archive.org/download/item1"
           "https://archive.org/download/item2" "a.torrent"
           (status 200) (status 200) 3 3 disk).
  - reflexivity.
  - right. vm_compute. reflexivity.
Defined.

Lemma broken_body_is_kept_witness :
  let w1 := (exec cut_off (download_file a_torrent "torrent_files" 2) disk).2 in
  let w2 := (exec (status 200) (download_file a_torrent "torrent_files" 3) w1).2 in
  no_closing_tag a_torrent = true
  /\ no_closing_tag (destination a_torrent "torrent_files") = true
  /\ 0 < 2
  /\ outcomes (added (journal disk) (journal w1)) = [Failed a_torrent 2]
  /\ Fs.lookup (files w1) (destination a_torrent "torrent_files")
     = Some (File (concat body))
  /\ outcomes (added (journal w1) (journal w2))
     = [Skipped (destination a_torrent "torrent_files")]
  /\ files w2 = files w1.
Proof.
  split; [reflexivity|]. split; [reflexivity|]. split; [lia|].
  apply (broken_body_is_kept cut_off a_torrent "torrent_files" 2 disk
           (fun _ => Response 200 body (Some (RequestException "reset")) None)
           (status 200) 3).
  - reflexivity.
  - reflexivity.
  - lia.
  - reflexivity.
  - reflexivity.
  - intros i _. repeat split. by eexists.
Defined.

Lemma search_items_missing_keys_witness :
  (exec silent (search_items "format:Torrent" 5) disk).1 = JList []
  /\ added (journal disk) (journal (exec silent (search_items "format:Torrent" 5) disk).2)
     = [Log INFO (SearchingQuery (search_url "format:Torrent" 5)); Console SearchingItems;
        Log INFO (FoundItems 0); Console (FoundItems 0)].
Proof.
  apply (proj1 (search_items_missing_keys silent "format:Torrent" 5 disk
                  (Response 200 [] None (Some (JDict [("responseHeader", JDict [])])))
                  [("responseHeader", JDict [])] eq_refl eq_refl eq_refl)).
  left. reflexivity.
Defined.

Lemma select_files_complete_witness :
  select_files occurs (listing ["a.torrent"; "notes.txt"; "b.torrent"]) None
  = Ok [JDict [("name", JStr "a.torrent")]; JDict [("name", JStr "b.torrent")]].
Proof.
  apply (select_files_complete occurs
           [("files", JList (map (fun name => JDict [("name", JStr name)])
                               ["a.torrent"; "notes.txt"; "b.torrent"]))]
           (map (fun name => JDict [("name", JStr name)])
              ["a.torrent"; "notes.txt"; "b.torrent"]) None eq_refl).
  repeat constructor; eexists; reflexivity.
Defined.

Lemma metadata_failure_is_logged_witness :
  metadata_of (unreachable 0%nat (metadata_url "item1"))
  = Raise (RequestException "timed out")
  /\ exec unreachable (download_torrent occurs plain "torrent_files" 3 "item1" None) disk
     = (tt, World (files disk) [metadata_url "item1"]
              [Log INFO (FetchingMetadata (metadata_url "item1"));
               Console (FetchingMetadata "item1");
               Log ERROR (MetadataFailed "item1" (RequestException "timed out"));
               Console (MetadataFailed "item1" (RequestException "timed out"))]).
Proof.
  split; [reflexivity|].
  apply (metadata_failure_is_logged occurs plain "torrent_files" 3 unreachable
           "item1" None disk). reflexivity.
Defined.

Lemma malformed_entry_stops_item_witness :
  exec damaged (download_torrent occurs plain "torrent_files" 3 "item1" None) disk
  = (tt, World (files disk) [metadata_url "item1"]
           [Log INFO (FetchingMetadata (metadata_url "item1"));
            Console (FetchingMetadata "item1");
            Log ERROR (MetadataFailed "item1" (KeyError "name"));
            Console (MetadataFailed "item1" (KeyError "name"))]).
Proof.
  apply (malformed_entry_stops_item occurs plain "torrent_files" 3 damaged
           "item1" None disk _ [JDict [("name", JStr "a.torrent")]]
           [JDict [("name", JStr "b.torrent")]] (JDict [("size", JInt 3)])
           (KeyError "name") eq_refl eq_refl).
  - repeat constructor. by eexists.
  - reflexivity.
Defined.

Lemma one_report_per_selected_file_witness :
  let w' := (exec (archive 200)
               (download_torrent occurs plain "torrent_files" 3 "item1" None) disk).2 in
  no_closing_tag "item1" = true
  /\ no_closing_tag (torrent_url "item1" "a.torrent") = true
  /\ Forall2 (reported_for "torrent_files" 3 "item1")
       [JDict [("name", JStr "a.torrent")]]
       (outcomes (added (journal disk) (journal w'))).
Proof.
  split; [reflexivity|]. split; [reflexivity|].
  apply (one_report_per_selected_file occurs plain "torrent_files" 3 (archive 200)
           "item1" None disk (listing ["a.torrent"; "notes.txt"])
           [JDict [("name", JStr "a.torrent")]]); try reflexivity.
  intros file name Hin Hname.
  apply list_elem_of_singleton in Hin. subst file.
  injection Hname as <-. split; reflexivity.
Defined.

(** One outcome for a download that succeeds at once. *)
Lemma download_file_reports_once_witness :
  let w' := (exec (status 200) (download_file a_torrent "torrent_files" 3) disk).2 in
  no_closing_tag a_torrent = true
  /\ no_closing_tag (destination a_torrent "torrent_files") = true
  /\ Fs.exists_ (files disk) (destination a_torrent "torrent_files") = false
  /\ outcomes (added (journal disk) (journal w'))
     = [Succeeded (destination a_torrent "torrent_files")].
Proof.
  split; [reflexivity|]. split; [reflexivity|]. split; [reflexivity|].
  destruct (download_file_reports_once (status 200) a_torrent "torrent_files" 3 disk
              eq_refl eq_refl) as [[He _]|[_ [[Hr _]|Hr]]].
  - discriminate He.
  - exact Hr.
  - discriminate Hr.
Defined.

Lemma download_file_changes_only_new_destination_witness :
  let w' := (exec (status 200) (download_file a_torrent "torrent_files" 3) disk).2 in
  "torrent_files" <> destination a_torrent "torrent_files"
  /\ files w' !! "torrent_files" = files disk !! "torrent_files"
  /\ files disk !! "torrent_files" = Some Dir
  /\ files w' !! "torrent_files" = Some Dir.
Proof.
  intros w'.
  assert ("torrent_files" <> destination a_torrent "torrent_files") as Hne by discriminate.
  assert (files disk !! "torrent_files" = Some Dir) as Hdir by reflexivity.
  split; [exact Hne|].
  split; [exact (proj1 (download_file_changes_only_new_destination (status 200)
                          a_torrent "torrent_files" 3 disk) _ Hne)|].
  split; [exact Hdir|].
  exact (proj2 (download_file_changes_only_new_destination (status 200)
                  a_torrent "torrent_files" 3 disk) _ _ Hdir).
Defined.

Lemma main_changes_only_new_downloads_witness :
  let w' := (main occurs plain "torrent_files" 3 (archive 200) second_first
               "format:Torrent" 2 None disk).2 in
  ~ in_folder "torrent_files" "notes/a.torrent"
  /\ files w' !! "notes/a.torrent" = files disk !! "notes/a.torrent"
  /\ files disk !! "torrent_files" = Some Dir
  /\ files w' !! "torrent_files" = Some Dir.
Proof.
  intros w'.
  assert (~ in_folder "torrent_files" "notes/a.torrent") as Hout.
  { intros (name & Hn & Heq). unfold Py.path_join in Heq.
    destruct (Py.startswith name "/") eqn:Hs.
    - subst name. discriminate Hs.
    - simpl in Heq. discriminate Heq. }
  assert (files disk !! "torrent_files" = Some Dir) as Hdir by reflexivity.
  split; [exact Hout|].
  split; [exact (proj1 (main_changes_only_new_downloads occurs plain "torrent_files" 3
                          (archive 200) second_first "format:Torrent" 2 None disk)
                   _ Hout)|].
  split; [exact Hdir|].
  exact (proj2 (main_changes_only_new_downloads occurs plain "torrent_files" 3
                  (archive 200) second_first "format:Torrent" 2 None disk) _ _ Hdir).
Defined.

Lemma main_processes_every_item_witness :
  no_closing_tag "item2" = true
  /\ metadata_url "item2"
     ∈ added (sent disk)
         (sent (main occurs plain "torrent_files" 3 (archive 500) second_first
                  "format:Torrent" 2 None disk).2).
Proof.
  split; [reflexivity|].
  apply (main_processes_every_item occurs plain "torrent_files" 3 (archive 500)
           second_first "format:Torrent" 2 None disk
           (JList [JDict [("identifier", JStr "item1")];
                   JDict [("identifier", JStr "item2")]])
           (JDict [("identifier", JStr "item2")]) (JStr "item2") 2
           [JDict [("identifier", JStr "item1")]; JDict [("identifier", JStr "item2")]]).
  - reflexivity.
  - reflexivity.
  - reflexivity.
  - apply list_elem_of_further, list_elem_of_here.
  - reflexivity.
  - reflexivity.
Defined.

Lemma main_stops_at_bad_document_witness :
  let run := main occurs plain "torrent_files" 3 mixed [] "format:Torrent" 3 None disk in
  run.1 = Raise (KeyError "identifier")
  /\ no_closing_tag "item1" = true
  /\ metadata_url "item1" ∈ added (sent disk) (sent run.2).
Proof.
  intros run.
  destruct (main_stops_at_bad_document occurs plain "torrent_files" 3 mixed []
              "format:Torrent" 3 None disk
              (JList [JDict [("identifier", JStr "item1")];
                      JDict [("title", JStr "untitled")];
                      JDict [("identifier", JStr "item2")]])
              (JDict [("title", JStr "untitled")]) 3
              [JDict [("identifier", JStr "item1")]]
              [JDict [("identifier", JStr "item2")]] (KeyError "identifier")
              eq_refl eq_refl
              ltac:(repeat constructor; by eexists) eq_refl) as (Hr & _ & _ & Hreq).
  split; [exact Hr|]. split; [reflexivity|].
  apply (Hreq (JDict [("identifier", JStr "item1")]) (JStr "item1"));
    [apply list_elem_of_here|reflexivity|reflexivity].
Defined.

Lemma keyword_entered_is_stripped_witness :
  blank "   " = true
  /\ keyword_entered "   " = None
  /\ blank "  Ubuntu desktop " = false
  /\ keyword_entered "  Ubuntu desktop " = Some "Ubuntu desktop"
  /\ query_for (keyword_entered "  Ubuntu desktop ") = "format:Torrent AND Ubuntu desktop".
Proof.
  split; [reflexivity|].
  split; [exact (proj1 (proj1 (keyword_entered_is_stripped occurs "   ") eq_refl))|].
  split; [reflexivity|].
  destruct (proj2 (keyword_entered_is_stripped occurs "  Ubuntu desktop ") eq_refl)
    as (Hk & _ & Hq & _).
  split; [exact Hk|exact Hq].
Defined.

Lemma run_program_crashes_with_main_witness :
  main_result (mixed (length (sent disk))
                 (search_url (query_for (keyword_entered "")) 3))
  = Raise (KeyError "identifier")
  /\ (run_program occurs plain "torrent_files" 3 mixed
        [Search "" 3 []; Search "ubuntu" 3 []; Quit] disk).1
     = Crashed (KeyError "identifier").
Proof.
  split; [reflexivity|].
  apply (run_program_crashes_with_main occurs plain "torrent_files" 3 mixed).
  reflexivity.
Defined.

(** The interactive loop on a search followed by the choice to quit. *)
Example run_program_example :
  let run := run_program occurs plain "torrent_files" 3 (archive 200)
               [Search "  " 2 []; Quit; Search "x" 1 []] disk in
  run.1 = Exited
  /\ outcomes (journal run.2)
     = [Succeeded "torrent_files/a.torrent"; Succeeded "torrent_files/b.torrent"].
Proof. vm_compute. split; reflexivity. Qed.
